(** * pyBlocker: the blocking worker of [main.py]

    A shallow embedding of [BlockerThread] (its constructor, [run] and the
    effect of [stop]) together with the part of [AppBlockerGUI] that reacts
    to the worker's signals, and the properties of the scheduling loop, of
    the per-process sweep and of the statistics that the worker emits.

    The worker talks to an environment it does not control: the wall clock,
    the [running] flag written by the GUI thread, and the process table with
    the processes' answers to [exe()], [name()], [terminate()] and
    [wait(timeout=3)].  The environment is a parameter of the model; every
    interaction with it, and every effect, is recorded in a trace. *)

From Stdlib Require Import ZArith List String Ascii Bool Lia.
Import ListNotations.
Local Open Scope string_scope.
Local Open Scope list_scope.
Local Open Scope Z_scope.

(** ** Naive datetimes

    [datetime.now()] is a naive local date and time with microsecond
    resolution.  Arithmetic on naive datetimes is linear in the calendar
    fields, so a datetime is modelled by its number of microseconds since
    1970-01-01T00:00:00, and a [timedelta] by a number of microseconds.
    The bounds of the type ([datetime.min], [datetime.max]) are not
    modelled, nor is the [OverflowError] of an addition that leaves them:
    the model is of runs whose datetimes stay within the bounds. *)

Module PyDatetime.

Definition datetime := Z.
Definition timedelta := Z.

Definition us_per_second : Z := 1000000.
Definition us_per_day : Z := 86400 * us_per_second.

(** [timedelta(days=d)], [timedelta(minutes=m)] *)
Definition timedelta_days (d : Z) : timedelta := d * us_per_day.
Definition timedelta_minutes (m : Z) : timedelta := m * 60 * us_per_second.

(** Proleptic Gregorian calendar: day number (0 = 1970-01-01) of a civil
    date and back. *)
Definition days_from_civil (y m d : Z) : Z :=
  let y' := if m <=? 2 then y - 1 else y in
  let era := y' / 400 in
  let yoe := y' - era * 400 in
  let mp := if 2 <? m then m - 3 else m + 9 in
  let doy := (153 * mp + 2) / 5 + d - 1 in
  let doe := yoe * 365 + yoe / 4 - yoe / 100 + doy in
  era * 146097 + doe - 719468.

Definition civil_from_days (n : Z) : Z * Z * Z :=
  let z := n + 719468 in
  let era := z / 146097 in
  let doe := z - era * 146097 in
  let yoe := (doe - doe / 1460 + doe / 36524 - doe / 146096) / 365 in
  let doy := doe - (365 * yoe + yoe / 4 - yoe / 100) in
  let mp := (5 * doy + 2) / 153 in
  let d := doy - (153 * mp + 2) / 5 + 1 in
  let m := if mp <? 10 then mp + 3 else mp - 9 in
  let y := yoe + era * 400 in
  (if m <=? 2 then y + 1 else y, m, d).

Definition is_leap (y : Z) : bool :=
  ((y mod 4 =? 0) && negb (y mod 100 =? 0)) || (y mod 400 =? 0).

Definition days_in_month (y m : Z) : Z :=
  if m =? 2 then (if is_leap y then 29 else 28)
  else if (m =? 4) || (m =? 6) || (m =? 9) || (m =? 11) then 30
  else 31.

(** The [.year], [.month] and [.day] attributes. *)
Definition year (t : datetime) : Z := fst (fst (civil_from_days (t / us_per_day))).
Definition month (t : datetime) : Z := snd (fst (civil_from_days (t / us_per_day))).
Definition day (t : datetime) : Z := snd (civil_from_days (t / us_per_day)).

(** [datetime.strptime(s, "%H:%M")]: the directives are the regular
    expressions [2[0-3]|[0-1]\d|\d] and [[0-5]\d|\d]; the whole string
    has to be consumed, otherwise [ValueError] is raised ([None] here).
    The model reads ASCII digits only: it is [strptime] on the texts that
    are [ascii_text], and refuses more than [strptime] on others. *)
Definition digit (c : ascii) : option Z :=
  let n := Z.of_nat (nat_of_ascii c) in
  if (48 <=? n) && (n <=? 57) then Some (n - 48) else None.

Definition number (cs : list ascii) (bound : Z) : option Z :=
  match cs with
  | [a] => digit a
  | [a; b] =>
      match digit a, digit b with
      | Some x, Some y => if 10 * x + y <=? bound then Some (10 * x + y) else None
      | _, _ => None
      end
  | _ => None
  end.

Fixpoint split_colon (cs : list ascii) : option (list ascii * list ascii) :=
  match cs with
  | [] => None
  | c :: rest =>
      if Ascii.eqb c ":"%char then Some ([], rest)
      else match split_colon rest with
           | Some (h, m) => Some (c :: h, m)
           | None => None
           end
  end.

Definition strptime_HM (s : string) : option (Z * Z) :=
  match split_colon (list_ascii_of_string s) with
  | Some (h, m) =>
      match number h 23, number m 59 with
      | Some hh, Some mm => Some (hh, mm)
      | _, _ => None
      end
  | None => None
  end.

(** [datetime.strptime(s, "%H:%M").replace(year=y, month=m, day=d)]: the
    time of day given by the string, seconds and microseconds zero, on the
    given date; [replace] raises [ValueError] ([None] here) when the day
    does not exist in that month. *)
Definition replace_date (hm : Z * Z) (y m d : Z) : option datetime :=
  if (1 <=? d) && (d <=? days_in_month y m)
  then Some (days_from_civil y m d * us_per_day
             + (fst hm * 3600 + snd hm * 60) * us_per_second)
  else None.

(** [int(delta.total_seconds())].  [total_seconds()] is the true division
    of the microseconds by [10**6]: the double nearest to the quotient,
    ties to even.  [int] cuts the fraction of that double off.  The double
    is given by its mantissa of 53 bits and its binary exponent; exponents
    beyond the range of a double do not occur for the microseconds of a
    [timedelta]. *)

(** The integer nearest to [n / d], ties to even. *)
Definition nearest (n d : Z) : Z :=
  let q := n / d in
  let r := n mod d in
  if 2 * r <? d then q
  else if d <? 2 * r then q + 1
  else if Z.even q then q else q + 1.

(** The binary exponent of [a / b]: [2^e <= a / b < 2^(e+1)]. *)
Definition quotient_log2 (a b : Z) : Z :=
  if b <=? a then Z.log2 (a / b) else - Z.log2_up ((b + a - 1) / a).

(** [a / b] for [0 <= a] and [0 < b]: mantissa and exponent. *)
Definition true_divide (a b : Z) : Z * Z :=
  if a =? 0 then (0, 0)
  else
    let e := quotient_log2 a b - 52 in
    (if 0 <=? e then nearest a (b * 2 ^ e) else nearest (a * 2 ^ (- e)) b, e).

(** [int(x)] for a double [x] that is not negative. *)
Definition int_of_float (x : Z * Z) : Z :=
  let '(m, e) := x in if 0 <=? e then m * 2 ^ e else m / 2 ^ (- e).

Definition int_total_seconds (delta : timedelta) : Z :=
  Z.sgn delta * int_of_float (true_divide (Z.abs delta) us_per_second).

End PyDatetime.

(** ** The worker: [BlockerThread] *)

Module Blocker.
Import PyDatetime.

(** *** Exceptions, processes, events *)

(** The exceptions that the code distinguishes; [OtherError] stands for
    every exception that no handler of [run] names. *)
Inductive exn := ValueError | NoSuchProcess | AccessDenied | TimeoutExpired | OtherError.

(** [except (psutil.NoSuchProcess, psutil.AccessDenied, psutil.TimeoutExpired)] *)
Definition soft_failure (e : exn) : bool :=
  match e with
  | NoSuchProcess | AccessDenied | TimeoutExpired => true
  | ValueError | OtherError => false
  end.

Definition is_ValueError (e : exn) : bool :=
  match e with ValueError => true | _ => false end.

(** What a call on a process handle does: return a value or raise. *)
Inductive reply (A : Type) := Returns (a : A) | Raises (e : exn).
Arguments Returns {A} a.
Arguments Raises {A} e.

(** A [psutil.Process] handle as one pass over the process table sees it.
    The handle belongs to the operating system: the answer to a call may
    depend on what was done to the handle before, so each method is given
    as a function of the number of calls already made on the handle in
    this pass.  [exe()] is the empty string when the path cannot be
    determined; [wait(timeout=3)] raises [TimeoutExpired] when the process
    has not exited in time. *)
Record Process := {
  pid : Z;
  exe : nat -> reply string;
  name : nat -> reply string;
  terminate : nat -> reply unit;
  wait : nat -> reply unit
}.

Inductive level := INFO | WARNING | ERROR.

(** The texts that are logged and notified, by their content. *)
Inductive message :=
| Scheduled (start : datetime)
| IncorrectTimeFormat
| StartedBlocking (minutes : Z)
| Terminated (p : Z) (n : string)
| FailedToTerminate (p : Z) (e : exn)
| FinishedBlocking
| SessionCompleted.

(** The first argument of [update_stats.emit]: the countdown passes the
    float [wait_seconds] (kept exactly, in microseconds), the blocking
    loop passes an [int]. *)
Inductive number := PyInt (n : Z) | PyFloat (micros : Z).

(** What the worker does, in order: its reads of the environment, with
    the value read, and its effects. *)
Inductive event :=
| Now (t : datetime)                       (* datetime.now() *)
| Running (b : bool)                       (* a read of self.running *)
| ProcessIter (pids : list Z)              (* psutil.process_iter(...) *)
| Exe (p : Z) (r : reply string)           (* proc.exe() *)
| Name (p : Z) (r : reply string)          (* proc.name() *)
| Terminate (p : Z) (r : reply unit)       (* proc.terminate() *)
| Wait (p : Z) (r : reply unit)            (* proc.wait(timeout=3) *)
| Log (l : level) (m : message)            (* logging.info/warning/error *)
| Notification (m : message)               (* send_notification *)
| UpdateStats (time_remaining : number) (blocked attempted : Z)
                                           (* self.update_stats.emit *)
| Sleep (seconds : Z).                     (* time.sleep *)

(** *** The environment

    The environment as a function of the worker's progress, measured by
    the number of events so far: what the wall clock shows, which
    processes an enumeration finds, and whether [stop()] has already
    cleared [self.running].  [__init__] sets the flag and only [stop()]
    writes it afterwards, so it is given by the point [stop_at] from which
    on it is false ([None]: [stop()] is never called). *)
Record Env := {
  clock : nat -> datetime;
  stop_at : option nat;
  process_table : nat -> list Process
}.

Definition flag (env : Env) (pos : nat) : bool :=
  match stop_at env with
  | None => true
  | Some n => (pos <? n)%nat
  end.

(** *** State and the monad of the worker

    [attempts] is the field of the thread object; [blocked_apps] is the
    local variable of [run]; [calls] counts the calls made on the process
    handle at hand. *)
Record state := {
  trace : list event;
  attempts : Z;
  blocked_apps : Z;
  calls : nat
}.

Inductive result (A : Type) := Ok (a : A) | Raise (e : exn) | OutOfFuel.
Arguments Ok {A} a.
Arguments Raise {A} e.
Arguments OutOfFuel {A}.

Definition M (A : Type) : Type := state -> result A * state.

Definition ret {A} (a : A) : M A := fun st => (Ok a, st).

Definition bind {A B} (c : M A) (k : A -> M B) : M B :=
  fun st =>
    match c st with
    | (Ok a, st') => k a st'
    | (Raise e, st') => (Raise e, st')
    | (OutOfFuel, st') => (OutOfFuel, st')
    end.

Definition raise {A} (e : exn) : M A := fun st => (Raise e, st).
Definition out_of_fuel {A} : M A := fun st => (OutOfFuel, st).

(** [try: body except <catches> as e: handler e] *)
Definition try_except {A} (body : M A) (catches : exn -> bool) (handler : exn -> M A) : M A :=
  fun st =>
    match body st with
    | (Raise e, st') => if catches e then handler e st' else (Raise e, st')
    | other => other
    end.

Declare Scope monad_scope.
Delimit Scope monad_scope with monad.
Notation "x <- c ;; k" := (bind c (fun x => k))
  (at level 61, c at next level, right associativity) : monad_scope.
Notation "c ;; k" := (bind c (fun _ => k))
  (at level 61, right associativity) : monad_scope.
Local Open Scope monad_scope.

Definition when (b : bool) (c : M unit) : M unit := if b then c else ret tt.

Definition emit (e : event) : M unit :=
  fun st => (Ok tt, {| trace := trace st ++ [e]; attempts := attempts st;
                       blocked_apps := blocked_apps st; calls := calls st |}).

Definition get_attempts : M Z := fun st => (Ok (attempts st), st).
Definition get_blocked_apps : M Z := fun st => (Ok (blocked_apps st), st).

Definition set_attempts (v : Z) : M unit :=
  fun st => (Ok tt, {| trace := trace st; attempts := v;
                       blocked_apps := blocked_apps st; calls := calls st |}).
Definition set_blocked_apps (v : Z) : M unit :=
  fun st => (Ok tt, {| trace := trace st; attempts := attempts st;
                       blocked_apps := v; calls := calls st |}).
Definition set_calls (n : nat) : M unit :=
  fun st => (Ok tt, {| trace := trace st; attempts := attempts st;
                       blocked_apps := blocked_apps st; calls := n |}).

Definition log (l : level) (m : message) : M unit := emit (Log l m).

(** [send_notification] catches every exception of the notifier itself. *)
Definition send_notification (m : message) : M unit := emit (Notification m).
Definition update_stats_emit (t : number) (b a : Z) : M unit := emit (UpdateStats t b a).

(** [time.sleep(s)] raises [ValueError] when [s] is negative. *)
Definition sleep (s : Z) : M unit :=
  if s <? 0 then raise ValueError else emit (Sleep s).

(** Reads of the environment. *)
Definition now (env : Env) : M datetime :=
  fun st => let t := clock env (List.length (trace st)) in bind (emit (Now t)) (fun _ => ret t) st.
Definition running (env : Env) : M bool :=
  fun st => let b := flag env (List.length (trace st)) in bind (emit (Running b)) (fun _ => ret b) st.
Definition process_iter (env : Env) : M (list Process) :=
  fun st => let ps := process_table env (List.length (trace st)) in
            bind (emit (ProcessIter (map pid ps))) (fun _ => ret ps) st.

(** A call on a process handle: the handle answers, the call is recorded
    and counted, and an exception propagates. *)
Definition call {A} (method : Process -> nat -> reply A) (ev : Z -> reply A -> event)
    (proc : Process) : M A :=
  fun st =>
    let r := method proc (calls st) in
    bind (emit (ev (pid proc) r))
         (fun _ => bind (set_calls (S (calls st)))
                        (fun _ => match r with Returns a => ret a | Raises e => raise e end)) st.

Definition exe_call : Process -> M string := call exe Exe.
Definition name_call : Process -> M string := call name Name.
Definition terminate_call : Process -> M unit := call terminate Terminate.
Definition wait_call : Process -> M unit := call wait Wait.

(** [for x in xs: body x] *)
Fixpoint for_each {A} (xs : list A) (body : A -> M unit) : M unit :=
  match xs with
  | [] => ret tt
  | x :: rest => body x ;; for_each rest body
  end.

(** Truth value of a string, [x in xs] on a list of strings. *)
Definition truthy (s : string) : bool := negb (String.eqb s "").
Definition mem (x : string) (xs : list string) : bool := existsb (String.eqb x) xs.
Definition nonempty {A} (xs : list A) : bool := match xs with [] => false | _ => true end.

(** *** The thread object *)
Record BlockerThread := {
  app_paths : list string;
  process_names : list string;
  duration_minutes : Z;
  start_time : option string;
  notify : bool;
  check_frequency : Z
}.

Definition initial : state :=
  {| trace := []; attempts := 0; blocked_apps := 0; calls := O |}.

Section Run.

(** [os.path.abspath] and [str.lower] *)
Variables abspath lower : string -> string.

(** [BlockerThread.__init__]; the mutable fields [running = True] and
    [attempts = 0] are the environment's flag and [initial]. *)
Definition init (paths names : option (list string)) (duration : Z)
    (start : option string) (notify_ : bool) (frequency : Z) : BlockerThread :=
  {| app_paths := match paths with Some l => map abspath l | None => [] end;
     process_names := match names with Some l => map lower l | None => [] end;
     duration_minutes := duration;
     start_time := start;
     notify := notify_;
     check_frequency := frequency |}.

Definition count_block : M unit :=
  b <- get_blocked_apps ;; set_blocked_apps (b + 1) ;;
  a <- get_attempts ;; set_attempts (a + 1).

(** Lines 115-125, "Check by Path". *)
Definition check_by_path (self : BlockerThread) (proc : Process) : M unit :=
  has_exe <- (if nonempty (app_paths self)
              then (e <- exe_call proc ;; ret (truthy e))
              else ret false) ;;
  if has_exe : bool then
    e <- exe_call proc ;;
    let proc_path := abspath e in
    if mem proc_path (app_paths self) then
      proc_name <- name_call proc ;;
      terminate_call proc ;;
      wait_call proc ;;
      log INFO (Terminated (pid proc) proc_name) ;;
      count_block ;;
      when (notify self) (send_notification (Terminated (pid proc) proc_name))
    else ret tt
  else ret tt.

(** Lines 128-137, "Check by Process Name". *)
Definition check_by_name (self : BlockerThread) (proc : Process) : M unit :=
  if nonempty (process_names self) then
    n <- name_call proc ;;
    let proc_name_lower := lower n in
    if mem proc_name_lower (process_names self) then
      terminate_call proc ;;
      wait_call proc ;;
      n1 <- name_call proc ;;
      log INFO (Terminated (pid proc) n1) ;;
      count_block ;;
      if notify self
      then (n2 <- name_call proc ;; send_notification (Terminated (pid proc) n2))
      else ret tt
    else ret tt
  else ret tt.

(** Lines 113-139: the body of the [for] loop, one process. *)
Definition sweep_process (self : BlockerThread) (proc : Process) : M unit :=
  set_calls O ;;
  try_except (check_by_path self proc ;; check_by_name self proc)
             soft_failure
             (fun e => log WARNING (FailedToTerminate (pid proc) e)).

(** What the loop body does with one process, whatever came before:
    outcome, events and number of counted blocks. *)
Definition handled_result (self : BlockerThread) (proc : Process) : result unit :=
  fst (sweep_process self proc initial).
Definition handled_events (self : BlockerThread) (proc : Process) : list event :=
  trace (snd (sweep_process self proc initial)).
Definition handled_count (self : BlockerThread) (proc : Process) : Z :=
  blocked_apps (snd (sweep_process self proc initial)).

(** Lines 111-139: one pass over the process table. *)
Definition sweep (env : Env) (self : BlockerThread) : M unit :=
  set_blocked_apps 0 ;;
  procs <- process_iter env ;;
  for_each procs (sweep_process self).

(** Lines 93-97, "Countdown Timer".  [mins, secs] are computed and not
    used. *)
Fixpoint countdown (fuel : nat) (env : Env) (wait_seconds : Z) : M unit :=
  match fuel with
  | O => out_of_fuel
  | S fuel' =>
      go <- (if 0 <? wait_seconds then running env else ret false) ;;
      if go : bool then
        a <- get_attempts ;;
        update_stats_emit (PyFloat wait_seconds) 0 a ;;
        sleep 1 ;;
        countdown fuel' env (wait_seconds - 1 * us_per_second)
      else ret tt
  end.

(** Lines 79-97: the body of the [try]. *)
Definition schedule (fuel : nat) (env : Env) (self : BlockerThread) (s : string) : M unit :=
  hm <- match strptime_HM s with Some hm => ret hm | None => raise ValueError end ;;
  t_year <- now env ;;
  t_month <- now env ;;
  t_day <- now env ;;
  start_datetime <- match replace_date hm (year t_year) (month t_month) (day t_day) with
                    | Some d => ret d
                    | None => raise ValueError
                    end ;;
  now_ <- now env ;;
  let start_datetime :=
    if start_datetime <? now_ then start_datetime + timedelta_days 1 else start_datetime in
  let wait_seconds := start_datetime - now_ in
  log INFO (Scheduled start_datetime) ;;
  when (notify self) (send_notification (Scheduled start_datetime)) ;;
  countdown fuel env wait_seconds.

(** Lines 110-143, "Blocking Loop". *)
Fixpoint blocking_loop (fuel : nat) (env : Env) (self : BlockerThread) (end_time : datetime)
    : M unit :=
  match fuel with
  | O => out_of_fuel
  | S fuel' =>
      t <- now env ;;
      go <- (if t <? end_time then running env else ret false) ;;
      if go : bool then
        sweep env self ;;
        t' <- now env ;;
        let time_remaining := int_total_seconds (end_time - t') in
        b <- get_blocked_apps ;;
        a <- get_attempts ;;
        update_stats_emit (PyInt time_remaining) b a ;;
        sleep (check_frequency self) ;;
        blocking_loop fuel' env self end_time
      else ret tt
  end.

(** Lines 104-148. *)
Definition enforce (fuel : nat) (env : Env) (self : BlockerThread) : M unit :=
  t <- now env ;;
  let end_time := t + timedelta_minutes (duration_minutes self) in
  log INFO (StartedBlocking (duration_minutes self)) ;;
  when (notify self) (send_notification (StartedBlocking (duration_minutes self))) ;;
  blocking_loop fuel env self end_time ;;
  r <- running env ;;
  if r : bool then
    log INFO FinishedBlocking ;;
    when (notify self) (send_notification FinishedBlocking)
  else ret tt.

(** [BlockerThread.run].  The [return] of the [except ValueError] branch
    is the [false] that skips the rest. *)
Definition run (fuel : nat) (env : Env) (self : BlockerThread) : M unit :=
  proceed <- match start_time self with
             | Some s =>
                 if truthy s then
                   try_except (schedule fuel env self s ;; ret true)
                              is_ValueError
                              (fun _ =>
                                 log ERROR IncorrectTimeFormat ;;
                                 when (notify self) (send_notification IncorrectTimeFormat) ;;
                                 ret false)
                 else ret true
             | None => ret true
             end ;;
  if proceed : bool then enforce fuel env self else ret tt.

(** A whole run of a freshly constructed thread: outcome and trace. *)
Definition run_thread (fuel : nat) (env : Env) (self : BlockerThread) : result unit * state :=
  run fuel env self initial.

End Run.

End Blocker.

(** ** The consumer: [AppBlockerGUI] *)

Module Controller.
Import Blocker.

(** What reaches the GUI: the [update_stats] signal, and [finished], which
    the thread emits, without an argument, when [run] has returned. *)
Inductive signal :=
| update_stats (time_remaining : number) (blocked attempted : Z)
| finished.

Definition stats_of (e : event) : list signal :=
  match e with
  | UpdateStats t b a => [update_stats t b a]
  | _ => []
  end.

Definition signals (r : result unit * state) : list signal :=
  flat_map stats_of (trace (snd r))
  ++ match fst r with Ok _ => [finished] | _ => [] end.

(** [AppBlockerGUI.blocking_finished], the slot of [finished]: what it
    logs and notifies. *)
Definition blocking_finished (thread : BlockerThread) : list event :=
  Log INFO SessionCompleted
  :: (if notify thread then [Notification FinishedBlocking] else []).

(** [AppBlockerGUI.update_stats]: minutes and seconds of the time label. *)
Definition time_label (time_remaining : Z) : Z * Z :=
  if 0 <? time_remaining then (time_remaining / 60, time_remaining mod 60) else (0, 0).

Definition react (thread : BlockerThread) (s : signal) : list event :=
  match s with
  | update_stats _ _ _ => []
  | finished => blocking_finished thread
  end.

End Controller.

(** ** Concrete threads, processes and environments *)

Module Examples.
Import Blocker PyDatetime.

(** [os.path.abspath] on paths that are already absolute and normalised,
    [str.lower] on ASCII. *)
Definition abspath (s : string) : string := s.

Definition lower_ascii (c : ascii) : ascii :=
  let n := nat_of_ascii c in
  if ((65 <=? n) && (n <=? 90))%nat then ascii_of_nat (n + 32) else c.

Fixpoint lower (s : string) : string :=
  match s with
  | EmptyString => EmptyString
  | String c rest => String (lower_ascii c) (lower rest)
  end.

(** A process that exits when it is asked to, behind a handle that keeps
    the name (psutil caches [name()] on Windows, and [exe()] everywhere):
    every read answers the same.  Once the exit is confirmed the process is
    gone, and a further [terminate()] raises [NoSuchProcess]; in a pass the
    first request is call 1, 2 or 3 on the handle, a second one comes after
    the exit. *)
Definition steady (p : Z) (path nm : string) : Process :=
  {| pid := p;
     exe := fun _ => Returns path;
     name := fun _ => Returns nm;
     terminate := fun i => if (i <=? 3)%nat then Returns tt else Raises NoSuchProcess;
     wait := fun _ => Returns tt |}.

(** The same process behind a handle that does not keep the name (POSIX):
    after the exit [name()] raises [NoSuchProcess] as well.  In a pass the
    name is read before the exit as call 0, 1 or 2 on the handle. *)
Definition vanishing (p : Z) (path nm : string) : Process :=
  {| pid := p;
     exe := fun _ => Returns path;
     name := fun i => if (i <=? 2)%nat then Returns nm else Raises NoSuchProcess;
     terminate := fun i => if (i <=? 3)%nat then Returns tt else Raises NoSuchProcess;
     wait := fun _ => Returns tt |}.

(** A process that is asked to terminate and does not exit in time. *)
Definition stubborn (p : Z) (path nm : string) : Process :=
  {| pid := p;
     exe := fun _ => Returns path;
     name := fun _ => Returns nm;
     terminate := fun _ => Returns tt;
     wait := fun _ => Raises TimeoutExpired |}.

(** A process whose executable path may not be read. *)
Definition guarded (p : Z) (nm : string) : Process :=
  {| pid := p;
     exe := fun _ => Raises AccessDenied;
     name := fun _ => Returns nm;
     terminate := fun _ => Returns tt;
     wait := fun _ => Returns tt |}.

(** Threads as the GUI constructs them: block for one minute by name, or
    by path and by name; start at 00:01, with notifications, or polling
    every five seconds; a start time that is no time of day. *)
Definition by_name : BlockerThread :=
  init abspath lower None (Some ["Calc"]) 1 None false 1.

Definition by_path_and_name : BlockerThread :=
  init abspath lower (Some ["/usr/bin/calc"]) (Some ["calc"]) 1 None false 1.

Definition at_one_past_midnight : BlockerThread :=
  init abspath lower None (Some ["calc"]) 30 (Some "00:01") true 1.

Definition every_five_seconds : BlockerThread :=
  init abspath lower None (Some ["calc"]) 30 (Some "00:01") false 5.

Definition malformed_start : BlockerThread :=
  init abspath lower None (Some ["calc"]) 1 (Some "25:00") false 1.

(** Environments.  [nobody_stops]: every step of the worker takes ten
    seconds, one process that does not exit.  [suspended]: the machine
    sleeps for a good minute between two steps, no process.
    [stop_while_counting]: the clock stands at midnight and [stop()] comes
    during the first sleep of the countdown.  [stop_in_third_turn]: ten
    seconds a step from midnight on, [stop()] during the third turn of the
    countdown.  [stop_while_sweeping]: one second a step, [stop()] right
    after the loop has read the flag, one listed process that exits when
    asked.  [bystander]: one second a step, a listed process and one that
    is on no list. *)
Definition nobody_stops : Env :=
  {| clock := fun n => Z.of_nat n * 10 * us_per_second;
     stop_at := None;
     process_table := fun _ => [stubborn 7 "/usr/bin/calc" "Calc"] |}.

Definition suspended : Env :=
  {| clock := fun n => Z.of_nat n * 61 * us_per_second;
     stop_at := None;
     process_table := fun _ => [] |}.

Definition stop_while_counting : Env :=
  {| clock := fun _ => 0;
     stop_at := Some 9%nat;
     process_table := fun _ => [] |}.

Definition stop_in_third_turn : Env :=
  {| clock := fun n => Z.of_nat n * 10 * us_per_second;
     stop_at := Some 12%nat;
     process_table := fun _ => [] |}.


Definition bystander : Env :=
  {| clock := fun n => Z.of_nat n * us_per_second;
     stop_at := None;
     process_table := fun _ => [steady 9 "/bin/ls" "ls"; steady 7 "/usr/bin/calc" "calc"] |}.

End Examples.

(** ** Vocabulary of the properties *)

Import Blocker PyDatetime.

(** The text has ASCII characters only.  On such a text the characters of
    the model are the characters of the Python string, and [strptime],
    [split] and [strip] read it as the model does: beyond ASCII, Python
    knows further decimal digits and further white space. *)
Definition ascii_text (s : string) : Prop :=
  forallb (fun c => (nat_of_ascii c <? 128)%nat) (list_ascii_of_string s) = true.

(** The handle raises nothing that the [except] clause of the sweep lets
    through. *)
Definition soft_reply {A} (r : reply A) : Prop :=
  match r with
  | Returns _ => True
  | Raises e => soft_failure e = true
  end.

Definition cooperative (proc : Process) : Prop :=
  forall i, soft_reply (exe proc i) /\ soft_reply (name proc i)
            /\ soft_reply (terminate proc i) /\ soft_reply (wait proc i).

(** Events of the loop body of the sweep. *)
Definition sweep_event (e : event) : bool :=
  match e with
  | Exe _ _ | Name _ _ | Terminate _ _ | Wait _ _ => true
  | Log INFO (Terminated _ _) | Log WARNING (FailedToTerminate _ _) => true
  | Notification (Terminated _ _) => true
  | _ => false
  end.

(** Waits that returned: exits that were confirmed. *)
Definition confirmed (e : event) : bool :=
  match e with
  | Wait _ (Returns _) => true
  | _ => false
  end.

(** [st'] is [st] with the events [evs] appended and [n] blocks counted. *)
Definition extends (st st' : state) (evs : list event) (n : Z) : Prop :=
  trace st' = trace st ++ evs
  /\ attempts st' = attempts st + n
  /\ blocked_apps st' = blocked_apps st + n.


Section Vocabulary.

Variables abspath lower : string -> string.

(** Some reading of the executable path, made absolute, is in the path
    list, or some reading of the name, in lower case, is in the name
    list. *)
Definition listed (self : BlockerThread) (proc : Process) : Prop :=
  (exists i s, exe proc i = Returns s /\ In (abspath s) (app_paths self))
  \/ (exists i n, name proc i = Returns n /\ In (lower n) (process_names self)).

(** The [for] loop over a list of processes in closed form: it goes on
    while the loop body returns. *)
Fixpoint pass_result (self : BlockerThread) (ps : list Process) : result unit :=
  match ps with
  | [] => Ok tt
  | p :: rest =>
      match handled_result abspath lower self p with
      | Ok _ => pass_result self rest
      | other => other
      end
  end.

Fixpoint pass_events (self : BlockerThread) (ps : list Process) : list event :=
  match ps with
  | [] => []
  | p :: rest =>
      handled_events abspath lower self p
      ++ match handled_result abspath lower self p with
         | Ok _ => pass_events self rest
         | _ => []
         end
  end.

Fixpoint pass_count (self : BlockerThread) (ps : list Process) : Z :=
  match ps with
  | [] => 0
  | p :: rest =>
      handled_count abspath lower self p
      + match handled_result abspath lower self p with
        | Ok _ => pass_count self rest
        | _ => 0
        end
  end.

(** Does the path, does the name of a process that always answers the
    same put it on the list? *)
Definition path_match (self : BlockerThread) (path : string) : bool :=
  nonempty (app_paths self) && truthy path && mem (abspath path) (app_paths self).
Definition name_match (self : BlockerThread) (nm : string) : bool :=
  nonempty (process_names self) && mem (lower nm) (process_names self).

End Vocabulary.

(** The exception that a recorded call raised, if it raised. *)
Definition raised (e : event) : option exn :=
  match e with
  | Exe _ (Raises x) | Name _ (Raises x) | Terminate _ (Raises x) | Wait _ (Raises x) => Some x
  | _ => None
  end.

(** The first call that raises is the last thing done with the process [p]:
    a soft failure is followed by its warning and nothing else, any other
    exception by nothing at all. *)
Fixpoint raise_ends (p : Z) (evs : list event) : Prop :=
  match evs with
  | [] => True
  | ev :: rest =>
      match raised ev with
      | Some x => rest = if soft_failure x then [Log WARNING (FailedToTerminate p x)] else []
      | None => raise_ends p rest
      end
  end.

(** The statistics that a trace carries: for every emission, the blocks of
    the tick and the cumulative attempts. *)
Definition stats (e : event) : list (Z * Z) :=
  match e with
  | UpdateStats _ b a => [(b, a)]
  | _ => []
  end.

Definition emitted (tr : list event) : list (Z * Z) := flat_map stats tr.

Definition sum_blocked (ups : list (Z * Z)) : Z := fold_right Z.add 0 (map fst ups).

(** ** The worker as a transition system

    The places where [run] can stand between two steps, with what is left
    to know there: the countdown loop with the value of [wait_seconds], the
    entry of the blocking part, the blocking loop with [end_time], its
    exit, and the two ways in which [run] ends. *)
Inductive phase :=
| Counting (wait_seconds : Z)
| Entering
| Blocking (end_time : datetime)
| Leaving
| Returned
| Crashed (e : exn).

(** [if self.start_time:] *)
Definition scheduled (self : BlockerThread) : option string :=
  match start_time self with
  | Some s => if truthy s then Some s else None
  | None => None
  end.

(** [if self.notify: send_notification(...)] *)
Definition notified (self : BlockerThread) (m : message) : list event :=
  if notify self then [Notification m] else [].

Section Transitions.

Variables abspath lower : string -> string.
Variable env : Env.
Variable self : BlockerThread.

(** [reaches ph tr a]: a run of a fresh thread can stand at [ph] with the
    trace [tr] behind it and [a] in [self.attempts]. *)
Inductive reaches : phase -> list event -> Z -> Prop :=
| reach_unscheduled :
    scheduled self = None ->
    reaches Entering [] 0
| reach_bad_format s :
    scheduled self = Some s ->
    strptime_HM s = None ->
    reaches Returned (Log ERROR IncorrectTimeFormat :: notified self IncorrectTimeFormat) 0
| reach_bad_date s hm :
    scheduled self = Some s ->
    strptime_HM s = Some hm ->
    replace_date hm (year (clock env 0)) (month (clock env 1)) (day (clock env 2)) = None ->
    reaches Returned
      ([Now (clock env 0); Now (clock env 1); Now (clock env 2);
        Log ERROR IncorrectTimeFormat] ++ notified self IncorrectTimeFormat) 0
| reach_scheduled s hm start :
    scheduled self = Some s ->
    strptime_HM s = Some hm ->
    replace_date hm (year (clock env 0)) (month (clock env 1)) (day (clock env 2)) = Some start ->
    let now_ := clock env 3 in
    let start_datetime := if start <? now_ then start + timedelta_days 1 else start in
    reaches (Counting (start_datetime - now_))
      ([Now (clock env 0); Now (clock env 1); Now (clock env 2); Now now_;
        Log INFO (Scheduled start_datetime)] ++ notified self (Scheduled start_datetime)) 0
| reach_count_tick w tr a :
    reaches (Counting w) tr a ->
    0 < w ->
    flag env (List.length tr) = true ->
    reaches (Counting (w - 1 * us_per_second))
      (tr ++ [Running true; UpdateStats (PyFloat w) 0 a; Sleep 1]) a
| reach_count_stop w tr a :
    reaches (Counting w) tr a ->
    0 < w ->
    flag env (List.length tr) = false ->
    reaches Entering (tr ++ [Running false]) a
| reach_count_done w tr a :
    reaches (Counting w) tr a ->
    w <= 0 ->
    reaches Entering tr a
| reach_enter tr a :
    reaches Entering tr a ->
    let t := clock env (List.length tr) in
    reaches (Blocking (t + timedelta_minutes (duration_minutes self)))
      (tr ++ [Now t; Log INFO (StartedBlocking (duration_minutes self))]
          ++ notified self (StartedBlocking (duration_minutes self))) a
| reach_tick end_time tr a :
    reaches (Blocking end_time) tr a ->
    let t := clock env (List.length tr) in
    t < end_time ->
    flag env (List.length tr + 1) = true ->
    let ps := process_table env (List.length tr + 2) in
    pass_result abspath lower self ps = Ok tt ->
    0 <= check_frequency self ->
    let swept := tr ++ [Now t; Running true; ProcessIter (map pid ps)]
                    ++ pass_events abspath lower self ps in
    let t' := clock env (List.length swept) in
    let n := pass_count abspath lower self ps in
    reaches (Blocking end_time)
      (swept ++ [Now t'; UpdateStats (PyInt (int_total_seconds (end_time - t'))) n (a + n);
                 Sleep (check_frequency self)]) (a + n)
| reach_bad_sleep end_time tr a :
    reaches (Blocking end_time) tr a ->
    let t := clock env (List.length tr) in
    t < end_time ->
    flag env (List.length tr + 1) = true ->
    let ps := process_table env (List.length tr + 2) in
    pass_result abspath lower self ps = Ok tt ->
    check_frequency self < 0 ->
    let swept := tr ++ [Now t; Running true; ProcessIter (map pid ps)]
                    ++ pass_events abspath lower self ps in
    let t' := clock env (List.length swept) in
    let n := pass_count abspath lower self ps in
    reaches (Crashed ValueError)
      (swept ++ [Now t'; UpdateStats (PyInt (int_total_seconds (end_time - t'))) n (a + n)])
      (a + n)
| reach_crash end_time tr a x :
    reaches (Blocking end_time) tr a ->
    let t := clock env (List.length tr) in
    t < end_time ->
    flag env (List.length tr + 1) = true ->
    let ps := process_table env (List.length tr + 2) in
    pass_result abspath lower self ps = Raise x ->
    reaches (Crashed x)
      (tr ++ [Now t; Running true; ProcessIter (map pid ps)]
          ++ pass_events abspath lower self ps)
      (a + pass_count abspath lower self ps)
| reach_expired end_time tr a :
    reaches (Blocking end_time) tr a ->
    let t := clock env (List.length tr) in
    end_time <= t ->
    reaches Leaving (tr ++ [Now t]) a
| reach_stop end_time tr a :
    reaches (Blocking end_time) tr a ->
    let t := clock env (List.length tr) in
    t < end_time ->
    flag env (List.length tr + 1) = false ->
    reaches Leaving (tr ++ [Now t; Running false]) a
| reach_completed tr a :
    reaches Leaving tr a ->
    flag env (List.length tr) = true ->
    reaches Returned
      (tr ++ [Running true; Log INFO FinishedBlocking] ++ notified self FinishedBlocking) a
| reach_stopped tr a :
    reaches Leaving tr a ->
    flag env (List.length tr) = false ->
    reaches Returned (tr ++ [Running false]) a.

(** How a result of [run] and a phase go together: [run] has returned,
    an exception has left it, or the fuel ended in one of the two loops. *)
Definition stands (r : result unit) (ph : phase) : Prop :=
  match r, ph with
  | Ok _, Returned => True
  | Raise x, Crashed y => x = y
  | OutOfFuel, (Counting _ | Blocking _) => True
  | _, _ => False
  end.

End Transitions.

(** Running totals: every emission carries blocks that are not negative,
    and as attempts the sum of the blocks emitted up to and including it. *)
Definition cumulative (ups : list (Z * Z)) : Prop :=
  forall n b a, nth_error ups n = Some (b, a) ->
                0 <= b /\ a = sum_blocked (firstn (S n) ups).

(** What may still happen once the worker has read [self.running] as
    false: it reads the clock, logs and notifies the start of the blocking
    part, and reads the flag again. *)
Definition quiet (e : event) : bool :=
  match e with
  | Now _ | Running false => true
  | Log INFO (StartedBlocking _) | Notification (StartedBlocking _) => true
  | _ => false
  end.

Definition reads_stop (e : event) : bool :=
  match e with
  | Running false => true
  | _ => false
  end.

(** The events after the first read of the flag as false. *)
Fixpoint after_stop (tr : list event) : list event :=
  match tr with
  | [] => []
  | e :: rest => if reads_stop e then rest else after_stop rest
  end.

(** The blocking part was entered at position [j] of the trace: the clock
    was read there and the start logged next. *)
Definition started_at (env : Env) (self : BlockerThread) (tr : list event) (j : nat) : Prop :=
  nth_error tr j = Some (Now (clock env j))
  /\ nth_error tr (S j) = Some (Log INFO (StartedBlocking (duration_minutes self))).

(** Once a stop has been read, what follows is quiet and the flag stays
    cleared. *)
Definition stop_inv (env : Env) (tr : list event) : Prop :=
  forallb quiet (after_stop tr) = true
  /\ (existsb reads_stop tr = true -> flag env (List.length tr) = false).

(** Every time that the blocking loop has emitted is the whole seconds,
    rounded towards zero, from the clock read just before the emission to
    the end time, which is the clock read at the entry plus the duration. *)
Definition time_inv (env : Env) (self : BlockerThread) (ph : phase) (tr : list event) : Prop :=
  (forall i v b a,
      nth_error tr i = Some (UpdateStats (PyInt v) b a) ->
      exists j, started_at env self tr j
                /\ (0 < i)%nat
                /\ nth_error tr (i - 1) = Some (Now (clock env (i - 1)))
                /\ v = int_total_seconds
                         (clock env j + timedelta_minutes (duration_minutes self)
                          - clock env (i - 1)))
  /\ (forall e, ph = Blocking e ->
        exists j, started_at env self tr j
                  /\ e = clock env j + timedelta_minutes (duration_minutes self)).

(** The events of [n] turns of the countdown that starts with
    [wait_seconds = w], with [a] in [self.attempts]. *)
Fixpoint count_events (n : nat) (w a : Z) : list event :=
  match n with
  | O => []
  | S n' =>
      [Running true; UpdateStats (PyFloat w) 0 a; Sleep 1]
      ++ count_events n' (w - 1 * us_per_second) a
  end.

(** ** How a run ends *)

(** The marks that the three ways of returning leave in the trace: the
    completion is logged, a stop was read, the start time was refused. *)
Definition logs_finished (e : event) : bool :=
  match e with
  | Log INFO FinishedBlocking => true
  | _ => false
  end.

Definition logs_bad_time (e : event) : bool :=
  match e with
  | Log ERROR IncorrectTimeFormat => true
  | _ => false
  end.

Definition notifies (e : event) : bool :=
  match e with
  | Notification _ => true
  | _ => false
  end.

(** Of a returned run: completed, stopped or refused, and only one of
    them. *)
Definition ended_one_way (tr : list event) : Prop :=
  let completed := existsb logs_finished tr in
  let stopped := existsb reads_stop tr in
  let refused := existsb logs_bad_time tr in
  (completed = true /\ stopped = false /\ refused = false)
  \/ (completed = false /\ stopped = true /\ refused = false)
  \/ (completed = false /\ stopped = false /\ refused = true).

(** What the marks are at each phase: none before [run] has returned. *)
Definition end_inv (ph : phase) (tr : list event) : Prop :=
  match ph with
  | Returned => ended_one_way tr
  | Crashed _ => True
  | _ => existsb logs_finished tr = false /\ existsb logs_bad_time tr = false
  end.


(** ** Counting the terminations *)

(** The log entries "Terminated process ...", and their number. *)
Definition logs_terminated (e : event) : bool :=
  match e with
  | Log INFO (Terminated _ _) => true
  | _ => false
  end.

Definition terminations (tr : list event) : Z :=
  Z.of_nat (List.length (filter logs_terminated tr)).

(** ** The passes and the end of the session *)

Definition enumerates (e : event) : bool :=
  match e with
  | ProcessIter _ => true
  | _ => false
  end.

(** Every pass has begun in time: two events before the enumeration of
    the processes the clock was read, and it showed a time before the end
    of the session, which is the clock read at the entry plus the
    duration. *)
Definition pass_inv (env : Env) (self : BlockerThread) (tr : list event) : Prop :=
  forall i pids,
    nth_error tr i = Some (ProcessIter pids) ->
    exists j, started_at env self tr j
              /\ (2 <= i)%nat
              /\ nth_error tr (i - 2) = Some (Now (clock env (i - 2)))
              /\ clock env (i - 2)
                 < clock env j + timedelta_minutes (duration_minutes self).

(** ** Checking a property on a range of integers *)

(** [P] holds on the [2^k] integers from [a] on. *)
Fixpoint range_all (k : nat) (a : Z) (P : Z -> bool) : bool :=
  match k with
  | O => P a
  | S k' => range_all k' a P && range_all k' (a + 2 ^ Z.of_nat k') P
  end.

(** The day [z] of the era that starts on 0000-03-01 has a date that is
    valid and that leads back to it. *)
Definition era_day_ok (z : Z) : bool :=
  let n := z - 719468 in
  let '(y, m, d) := PyDatetime.civil_from_days n in
  (PyDatetime.days_from_civil y m d =? n)
  && (1 <=? m) && (m <=? 12) && (1 <=? d) && (d <=? PyDatetime.days_in_month y m).

(** ** The window: [AppBlockerGUI]

    The handlers of the window as functions of what they read (the values
    of the input widgets, whether the process has administrative rights,
    whether the thread is running) and of what they change: which widgets
    are enabled, and the [blocker_thread] field.  Strings are ASCII. *)

Module Gui.
Import Blocker.

(** [str.strip()]: the ASCII characters that [str.isspace] accepts are the
    codes 9 to 13 and 28 to 32.  Beyond ASCII Python knows further white
    space; the model is [str.strip()] on the texts that are [ascii_text]. *)
Definition is_space (c : ascii) : bool :=
  let n := nat_of_ascii c in
  (((9 <=? n) && (n <=? 13)) || ((28 <=? n) && (n <=? 32)))%nat.

Fixpoint lstrip (s : string) : string :=
  match s with
  | EmptyString => EmptyString
  | String c rest => if is_space c then lstrip rest else s
  end.

Fixpoint rstrip (s : string) : string :=
  match s with
  | EmptyString => EmptyString
  | String c rest =>
      match rstrip rest with
      | EmptyString => if is_space c then EmptyString else String c EmptyString
      | kept => String c kept
      end
  end.

Definition strip (s : string) : string := rstrip (lstrip s).

(** [s.split(sep)] for a separator of one character: the pieces between the
    separators, empty pieces included; one empty piece for the empty
    string. *)
Fixpoint split (sep : ascii) (s : string) : list string :=
  match s with
  | EmptyString => [EmptyString]
  | String c rest =>
      if Ascii.eqb c sep then EmptyString :: split sep rest
      else match split sep rest with
           | piece :: pieces => String c piece :: pieces
           | [] => [String c EmptyString]
           end
  end.

(** Line 321:
    [[name.strip() for name in text.split(';') if name.strip()]] *)
Definition parse_names (text : string) : list string :=
  flat_map (fun piece => if truthy (strip piece) then [strip piece] else [])
           (split ";"%char text).

(** [QTime.toString("HH:mm")]: hour and minute, two digits each. *)
Definition digit_char (d : Z) : ascii := ascii_of_nat (48 + Z.to_nat d).

Definition two_digits (n : Z) : string :=
  String (digit_char (n / 10)) (String (digit_char (n mod 10)) EmptyString).

Definition toString_HHmm (h m : Z) : string :=
  (two_digits h ++ ":" ++ two_digits m)%string.

(** [add_application], lines 306-309: the chosen files that the list does
    not hold yet are appended. *)
Fixpoint add_application (app_paths_list file_paths : list string) : list string :=
  match file_paths with
  | [] => app_paths_list
  | path :: rest =>
      add_application (if mem path app_paths_list then app_paths_list
                       else app_paths_list ++ [path]) rest
  end.

(** The values of the input widgets. *)
Record Form := {
  items : list string;
  names_text : string;
  duration_value : Z;
  frequency_value : Z;
  notify_checked : bool;
  admin_checked : bool;
  start_checked : bool;
  start_hour : Z;
  start_minute : Z
}.

(** Which widgets are enabled. *)
Record Widgets := {
  start_button : bool;
  stop_button : bool;
  add_app_button : bool;
  remove_app_button : bool;
  names_input : bool;
  duration_input : bool;
  start_time_checkbox : bool;
  start_time_input : bool;
  frequency_input : bool;
  notify_checkbox : bool;
  admin_checkbox : bool
}.

Record Window := {
  enabled : Widgets;
  blocker_thread : option BlockerThread
}.

(** What a handler does besides: its message boxes, log entries and
    notifications, the thread it starts or stops, the exit of the
    process. *)
Inductive effect :=
| WarnInputRequired
| Exit
| StartThread (thread : BlockerThread)
| StopThread
| LogStoppedByUser
| NotifyStoppedByUser
| InformStopped
| LogSessionCompleted
| NotifyFinished.

(** [AppBlockerGUI.__init__]: everything is enabled but the stop button and
    the start time. *)
Definition opened : Window :=
  {| enabled := {| start_button := true; stop_button := false; add_app_button := true;
                   remove_app_button := true; names_input := true; duration_input := true;
                   start_time_checkbox := true; start_time_input := false;
                   frequency_input := true; notify_checkbox := true;
                   admin_checkbox := true |};
     blocker_thread := None |}.

(** [toggle_start_time] *)
Definition toggle_start_time (w : Window) (checked : bool) : Window :=
  {| enabled := {| start_button := start_button (enabled w);
                   stop_button := stop_button (enabled w);
                   add_app_button := add_app_button (enabled w);
                   remove_app_button := remove_app_button (enabled w);
                   names_input := names_input (enabled w);
                   duration_input := duration_input (enabled w);
                   start_time_checkbox := start_time_checkbox (enabled w);
                   start_time_input := checked;
                   frequency_input := frequency_input (enabled w);
                   notify_checkbox := notify_checkbox (enabled w);
                   admin_checkbox := admin_checkbox (enabled w) |};
     blocker_thread := blocker_thread w |}.

(** "Disable Inputs", lines 340-350. *)
Definition blocking : Widgets :=
  {| start_button := false; stop_button := true; add_app_button := false;
     remove_app_button := false; names_input := false; duration_input := false;
     start_time_checkbox := false; start_time_input := false; frequency_input := false;
     notify_checkbox := false; admin_checkbox := false |}.

(** "Enable Inputs", lines 380-389 and 419-428: [start_time_input] is not
    among the widgets that are set. *)
Definition enable_inputs (ws : Widgets) : Widgets :=
  {| start_button := true; stop_button := false; add_app_button := true;
     remove_app_button := true; names_input := true; duration_input := true;
     start_time_checkbox := true; start_time_input := start_time_input ws;
     frequency_input := true; notify_checkbox := true; admin_checkbox := true |}.

Section Handlers.

Variables abspath lower : string -> string.

(** [start_blocking].  [request_admin] ends in [sys.exit] on every path. *)
Definition start_blocking (is_admin : bool) (form : Form) (w : Window)
    : Window * list effect :=
  let app_paths := items form in
  let process_names := parse_names (names_text form) in
  if negb (nonempty app_paths) && negb (nonempty process_names)
  then (w, [WarnInputRequired])
  else
    let start_time :=
      if start_checked form
      then Some (toString_HHmm (start_hour form) (start_minute form))
      else None in
    if admin_checked form && negb is_admin
    then (w, [Exit])
    else
      let thread := init abspath lower (Some app_paths) (Some process_names)
                      (duration_value form) start_time (notify_checked form)
                      (frequency_value form) in
      ({| enabled := blocking; blocker_thread := Some thread |}, [StartThread thread]).

End Handlers.

(** [stop_blocking]; [is_running] is [self.blocker_thread.isRunning()]. *)
Definition stop_blocking (is_running : bool) (form : Form) (w : Window)
    : Window * list effect :=
  match blocker_thread w with
  | Some _ =>
      if is_running
      then ({| enabled := enable_inputs (enabled w); blocker_thread := None |},
            [StopThread; LogStoppedByUser]
            ++ (if notify_checked form then [NotifyStoppedByUser] else [])
            ++ [InformStopped])
      else ({| enabled := enable_inputs (enabled w); blocker_thread := blocker_thread w |}, [])
  | None => ({| enabled := enable_inputs (enabled w); blocker_thread := None |}, [])
  end.

(** [blocking_finished], the slot of the thread's [finished] signal. *)
Definition blocking_finished (w : Window) : Window * list effect :=
  ({| enabled := enable_inputs (enabled w); blocker_thread := blocker_thread w |},
   LogSessionCompleted
   :: match blocker_thread w with
      | Some thread => if notify thread then [NotifyFinished] else []
      | None => []
      end).

End Gui.

(** A name as [parse_names] delivers it: not empty, no white space around
    it, no semicolon in it. *)
Definition has_no (c : ascii) (s : string) : Prop := ~ In c (list_ascii_of_string s).

Definition clean_name (n : string) : Prop :=
  truthy n = true /\ Gui.strip n = n /\ has_no ";"%char n.

(** The values that the input widgets can hold: the two spin boxes have
    the ranges 1 to 1440 and 1 to 60 (lines 211 and 233), the time edit
    holds a time of day. *)
Definition valid_form (form : Gui.Form) : Prop :=
  1 <= Gui.duration_value form <= 1440
  /\ 1 <= Gui.frequency_value form <= 60
  /\ 0 <= Gui.start_hour form < 24
  /\ 0 <= Gui.start_minute form < 60.

(** Two readings of the clock fall on the same day. *)
Definition same_day (t u : PyDatetime.datetime) : Prop :=
  t / PyDatetime.us_per_day = u / PyDatetime.us_per_day.

(** ** Further examples *)

Module Sessions.
Import Blocker PyDatetime Examples.

(** A process whose name cannot be read for a reason that the sweep does
    not expect. *)
Definition broken (p : Z) : Process :=
  {| pid := p;
     exe := fun _ => Returns "";
     name := fun _ => Raises OtherError;
     terminate := fun _ => Returns tt;
     wait := fun _ => Returns tt |}.

(** One second a step, a broken process in the table. *)
Definition with_broken : Env :=
  {| clock := fun n => Z.of_nat n * us_per_second;
     stop_at := None;
     process_table := fun _ => [broken 5] |}.

(** Ten seconds a step, one listed process that exits when asked; nobody
    stops the thread. *)
Definition calc_running : Env :=
  {| clock := fun n => Z.of_nat n * 10 * us_per_second;
     stop_at := None;
     process_table := fun _ => [steady 7 "/usr/bin/calc" "Calc"] |}.

(** Block by name for one minute, with notifications. *)
Definition by_name_notifying : BlockerThread :=
  init abspath lower None (Some ["calc"]) 1 None true 1.

(** The window with two paths in the list, the names [calc] and
    [notepad.exe] typed in, start at 07:05 ticked. *)
Definition filled : Gui.Form :=
  {| Gui.items := ["/usr/bin/calc"; "/usr/bin/gedit"];
     Gui.names_text := " calc ;; notepad.exe;";
     Gui.duration_value := 30;
     Gui.frequency_value := 1;
     Gui.notify_checked := true;
     Gui.admin_checked := false;
     Gui.start_checked := true;
     Gui.start_hour := 7;
     Gui.start_minute := 5 |}.

(** The thread that [start_blocking] makes of [filled], and the window
    that holds it. *)
Definition filled_thread : BlockerThread :=
  init abspath lower (Some ["/usr/bin/calc"; "/usr/bin/gedit"])
    (Some ["calc"; "notepad.exe"]) 30 (Some "07:05") true 1.

Definition blocking_window : Gui.Window :=
  {| Gui.enabled := Gui.blocking; Gui.blocker_thread := Some filled_thread |}.

End Sessions.
(** ** One process of a pass *)

Ltac unfold_sweep :=
  unfold handled_result, handled_events, handled_count, sweep_process, check_by_path,
    check_by_name, count_block, try_except, when, exe_call, name_call, terminate_call,
    wait_call, call, log, send_notification, get_attempts, get_blocked_apps,
    set_attempts, set_blocked_apps, set_calls, emit, bind, ret, raise, initial in *;
  cbn -[Z.add] in *.

(** Case analysis on every answer and every test of the loop body. *)
Ltac sweep_cases :=
  repeat (match goal with
          | |- context [match ?x with _ => _ end] =>
              lazymatch x with
              | context [match _ with _ => _ end] => fail
              | _ => destruct x eqn:?
              end
          end; cbn -[Z.add] in *).

Ltac use_answers :=
  repeat match goal with
         | H : forall i : nat, ?f ?p i = _, E : ?f ?p ?n = _ |- _ =>
             rewrite H in E; try discriminate E; inversion E; subst; clear E
         end.

Section SweepProcess.

Variables abspath lower : string -> string.

Lemma mem_In x xs : mem x xs = true <-> In x xs.
Proof.
  unfold mem. rewrite existsb_exists. split.
  - intros [y [Hy E]]. apply String.eqb_eq in E. now subst.
  - intros H. exists x. split; [assumption | apply String.eqb_refl].
Qed.

Lemma sweep_process_extends self proc st :
  fst (sweep_process abspath lower self proc st) = handled_result abspath lower self proc
  /\ extends st (snd (sweep_process abspath lower self proc st))
       (handled_events abspath lower self proc) (handled_count abspath lower self proc).
Proof.
  unfold extends. unfold_sweep. sweep_cases.
  all: repeat split; rewrite <- ?app_assoc, ?app_nil_r; cbn; try reflexivity; lia.
Qed.

Lemma handled_count_range self proc :
  0 <= handled_count abspath lower self proc <= 2.
Proof. unfold_sweep. sweep_cases. all: lia. Qed.

Lemma handled_events_sweep self proc :
  forallb sweep_event (handled_events abspath lower self proc) = true.
Proof. unfold_sweep. sweep_cases. all: reflexivity. Qed.

Lemma handled_count_confirmed self proc :
  handled_count abspath lower self proc
  <= Z.of_nat (List.length (filter confirmed (handled_events abspath lower self proc))).
Proof. unfold_sweep. sweep_cases. all: lia. Qed.

Lemma handled_result_cases self proc :
  handled_result abspath lower self proc = Ok tt
  \/ exists e, handled_result abspath lower self proc = Raise e /\ soft_failure e = false.
Proof.
  unfold_sweep. sweep_cases.
  all: try (left; reflexivity).
  all: right; eexists; split; [reflexivity | assumption].
Qed.

Lemma handled_result_cooperative self proc :
  cooperative proc -> handled_result abspath lower self proc = Ok tt.
Proof.
  intros C. destruct (handled_result_cases self proc) as [H | [e [H F]]]; [assumption | exfalso].
  revert H F. unfold_sweep. sweep_cases.
  all: intros H F; try discriminate H; inversion H; subst.
  all: match goal with
       | E : ?f ?p ?n = Raises _ |- _ =>
           let C' := fresh in
           pose proof (C n) as C'; unfold soft_reply in C'; rewrite E in C';
           destruct C' as (? & ? & ? & ?); congruence
       end.
Qed.

(** Only a listed process is asked to terminate. *)
Lemma handled_terminate_listed self proc p r :
  In (Terminate p r) (handled_events abspath lower self proc) ->
  p = pid proc /\ listed abspath lower self proc.
Proof.
  unfold listed. unfold_sweep. sweep_cases.
  all: intros H; repeat (destruct H as [H | H]; try discriminate H); try contradiction.
  all: inversion H; subst; split; [reflexivity | ].
  all: repeat match goal with
              | E : mem _ _ = true |- _ => apply mem_In in E
              end.
  all: first [ left; solve [eauto 8] | right; solve [eauto 8] ].
Qed.

(** No wait returns: nothing is counted. *)
Lemma handled_count_timeout self proc :
  (forall i, wait proc i = Raises TimeoutExpired) ->
  handled_count abspath lower self proc = 0.
Proof.
  intros W. unfold_sweep. sweep_cases. all: use_answers; reflexivity.
Qed.

(** A wait that times out after a request that was accepted is logged as
    the failure of that process. *)
Lemma handled_timeout_logged self proc :
  (forall i, wait proc i = Raises TimeoutExpired) ->
  In (Terminate (pid proc) (Returns tt)) (handled_events abspath lower self proc) ->
  In (Wait (pid proc) (Raises TimeoutExpired)) (handled_events abspath lower self proc)
  /\ In (Log WARNING (FailedToTerminate (pid proc) TimeoutExpired))
        (handled_events abspath lower self proc).
Proof.
  intros W. unfold_sweep. sweep_cases. all: use_answers.
  all: intros H; repeat (destruct H as [H | H]; try discriminate H); try contradiction.
  all: try match goal with S : soft_failure TimeoutExpired = false |- _ => discriminate S end.
  all: split; cbn; auto 20.
Qed.

(** A process on the name list, behind a handle that does not give the
    name any more once the exit is confirmed. *)
Lemma handled_name_gone self proc nm :
  app_paths self = [] ->
  In (lower nm) (process_names self) ->
  name proc 0 = Returns nm ->
  terminate proc 1 = Returns tt ->
  wait proc 2 = Returns tt ->
  name proc 3 = Raises NoSuchProcess ->
  handled_result abspath lower self proc = Ok tt
  /\ handled_events abspath lower self proc
     = [Name (pid proc) (Returns nm); Terminate (pid proc) (Returns tt);
        Wait (pid proc) (Returns tt); Name (pid proc) (Raises NoSuchProcess);
        Log WARNING (FailedToTerminate (pid proc) NoSuchProcess)]
  /\ handled_count abspath lower self proc = 0.
Proof.
  intros P I N0 T1 W2 N3.
  assert (Ne : nonempty (process_names self) = true)
    by (destruct (process_names self); [destruct I | reflexivity]).
  apply mem_In in I.
  unfold_sweep. rewrite P, Ne. cbn -[Z.add]. rewrite N0. cbn -[Z.add]. rewrite I.
  cbn -[Z.add]. rewrite T1. cbn -[Z.add]. rewrite W2. cbn -[Z.add]. rewrite N3.
  cbn -[Z.add]. auto.
Qed.

(** A process on both lists whose exit is confirmed in the check by path:
    the check by name finds a process that is gone, whether the handle
    still gives the name or not, and counts nothing more. *)
Lemma handled_both_gone self proc path nm :
  truthy path = true ->
  In (abspath path) (app_paths self) ->
  exe proc 0 = Returns path -> exe proc 1 = Returns path ->
  name proc 2 = Returns nm ->
  terminate proc 3 = Returns tt ->
  wait proc 4 = Returns tt ->
  name proc 5 = Raises NoSuchProcess
  \/ (name proc 5 = Returns nm /\ terminate proc 6 = Raises NoSuchProcess) ->
  handled_result abspath lower self proc = Ok tt
  /\ handled_count abspath lower self proc = 1.
Proof.
  intros T I E0 E1 N2 T3 W4 G.
  assert (Ne : nonempty (app_paths self) = true)
    by (destruct (app_paths self); [destruct I | reflexivity]).
  apply mem_In in I.
  unfold_sweep. rewrite Ne. cbn -[Z.add]. rewrite E0. cbn -[Z.add]. rewrite T.
  cbn -[Z.add]. rewrite E1. cbn -[Z.add]. rewrite I. cbn -[Z.add]. rewrite N2.
  cbn -[Z.add]. rewrite T3. cbn -[Z.add]. rewrite W4. cbn -[Z.add].
  destruct (notify self); cbn -[Z.add].
  all: destruct (nonempty (process_names self)); cbn -[Z.add]; [ | auto].
  all: destruct G as [G | [G G']]; rewrite G; cbn -[Z.add]; [auto | ].
  all: destruct (mem (lower nm) (process_names self)); cbn -[Z.add]; [ | auto].
  all: rewrite G'; cbn -[Z.add]; auto.
Qed.

End SweepProcess.

(** ** One pass over the process table *)

Section Sweep.

Variables abspath lower : string -> string.

Lemma handled_raise_ends self proc :
  raise_ends (pid proc) (handled_events abspath lower self proc).
Proof.
  unfold_sweep. sweep_cases.
  all: cbn; try congruence; auto.
Qed.

(** An executable path that reads as empty leaves the name to decide. *)
Lemma handled_empty_exe self proc n :
  nonempty (app_paths self) = true ->
  exe proc 0 = Returns "" ->
  name proc 1 = Returns n ->
  In (lower n) (process_names self) ->
  In (Terminate (pid proc) (terminate proc 2)) (handled_events abspath lower self proc).
Proof.
  intros Hp He Hn Hin.
  assert (Hne : nonempty (process_names self) = true)
    by (destruct (process_names self); [contradiction | reflexivity]).
  apply mem_In in Hin. unfold_sweep.
  repeat (progress (rewrite ?Hp, ?He, ?Hne, ?Hn, ?Hin); cbn).
  sweep_cases. all: cbn; auto.
Qed.

Lemma for_each_extends self ps : forall st,
  fst (for_each ps (sweep_process abspath lower self) st) = pass_result abspath lower self ps
  /\ extends st (snd (for_each ps (sweep_process abspath lower self) st))
       (pass_events abspath lower self ps) (pass_count abspath lower self ps).
Proof.
  induction ps as [| p rest IH]; intros st.
  - cbn. unfold extends. cbn. rewrite app_nil_r. repeat split; lia.
  - cbn [for_each pass_result pass_events pass_count]. unfold bind.
    destruct (sweep_process_extends abspath lower self p st) as [Hr (Ht & Ha & Hb)].
    destruct (sweep_process abspath lower self p st) as [r st1]. cbn [fst snd] in *.
    rewrite <- Hr.
    destruct r as [[] | e |].
    + destruct (IH st1) as [Hr' (Ht' & Ha' & Hb')]. split; [assumption | ].
      unfold extends. rewrite Ht', Ha', Hb', Ht, Ha, Hb, app_assoc. repeat split; lia.
    + cbn [fst snd]. unfold extends. rewrite Ht, Ha, Hb, app_nil_r. repeat split; lia.
    + cbn [fst snd]. unfold extends. rewrite Ht, Ha, Hb, app_nil_r. repeat split; lia.
Qed.

Lemma sweep_extends env self st :
  let ps := process_table env (List.length (trace st)) in
  let r := sweep abspath lower env self st in
  fst r = pass_result abspath lower self ps
  /\ trace (snd r) = trace st ++ ProcessIter (map pid ps) :: pass_events abspath lower self ps
  /\ attempts (snd r) = attempts st + pass_count abspath lower self ps
  /\ blocked_apps (snd r) = pass_count abspath lower self ps.
Proof.
  intros ps r. subst r. unfold sweep, set_blocked_apps, process_iter, emit, bind, ret.
  cbn -[for_each]. fold ps.
  match goal with |- context [for_each ps _ ?s] =>
    destruct (for_each_extends self ps s) as [Hr (Ht & Ha & Hb)] end.
  cbn [trace attempts blocked_apps] in *.
  repeat split; try assumption.
  all: first [ rewrite Ht, <- app_assoc; reflexivity | lia ].
Qed.

Lemma pass_count_nonneg self ps : 0 <= pass_count abspath lower self ps.
Proof.
  induction ps as [| p rest IH]; cbn; [lia | ].
  pose proof (handled_count_range abspath lower self p).
  destruct (handled_result abspath lower self p); lia.
Qed.

Lemma pass_events_sweep self ps :
  forallb sweep_event (pass_events abspath lower self ps) = true.
Proof.
  induction ps as [| p rest IH]; cbn; [reflexivity | ].
  rewrite forallb_app, handled_events_sweep.
  destruct (handled_result abspath lower self p); auto.
Qed.

Lemma pass_count_confirmed self ps :
  pass_count abspath lower self ps
  <= Z.of_nat (List.length (filter confirmed (pass_events abspath lower self ps))).
Proof.
  induction ps as [| p rest IH]; cbn; [lia | ].
  rewrite filter_app, length_app, Nat2Z.inj_add.
  pose proof (handled_count_confirmed abspath lower self p).
  destruct (handled_result abspath lower self p); cbn; lia.
Qed.

Lemma pass_count_timeout self ps :
  Forall (fun p => forall i, wait p i = Raises TimeoutExpired) ps ->
  pass_count abspath lower self ps = 0.
Proof.
  induction 1 as [| p rest Hp _ IH]; cbn; [reflexivity | ].
  rewrite (handled_count_timeout abspath lower self p Hp).
  destruct (handled_result abspath lower self p); lia.
Qed.

Lemma pass_cooperative self ps :
  Forall cooperative ps ->
  pass_result abspath lower self ps = Ok tt
  /\ pass_events abspath lower self ps = flat_map (handled_events abspath lower self) ps
  /\ pass_count abspath lower self ps
     = fold_right Z.add 0 (map (handled_count abspath lower self) ps).
Proof.
  induction 1 as [| p rest Hp _ (IHr & IHe & IHc)]; cbn; [auto | ].
  rewrite (handled_result_cooperative abspath lower self p Hp).
  rewrite IHe, IHc. auto.
Qed.

Lemma pass_terminate_listed self ps p r :
  In (Terminate p r) (pass_events abspath lower self ps) ->
  exists proc, In proc ps /\ pid proc = p /\ listed abspath lower self proc.
Proof.
  induction ps as [| q rest IH]; cbn; [contradiction | ].
  rewrite in_app_iff. intros [H | H].
  - apply handled_terminate_listed in H. destruct H as [-> L]. eauto.
  - destruct (handled_result abspath lower self q); try contradiction.
    destruct (IH H) as [proc (Hin & Hp & L)]. eauto.
Qed.

End Sweep.

(** ** The transition system follows [run] *)

Ltac exec :=
  unfold now, running, process_iter, log, send_notification, update_stats_emit,
    get_attempts, get_blocked_apps, when, emit, bind, ret, raise, out_of_fuel, try_except;
  cbn -[countdown blocking_loop sweep Z.add Z.sub Z.mul Z.ltb Z.leb flag
       int_total_seconds timedelta_minutes timedelta_days us_per_second
       year month day replace_date strptime_HM truthy enforce].

Ltac flatten_trace :=
  rewrite <- ?app_assoc; cbn [app].

Lemma length_snoc {A} (l : list A) (x : A) : List.length (l ++ [x]) = (List.length l + 1)%nat.
Proof. rewrite length_app. reflexivity. Qed.

Ltac positions :=
  rewrite ?length_snoc, <- ?Nat.add_assoc in *; cbn [Nat.add] in *.

Section Soundness.

Variables abspath lower : string -> string.
Variable env : Env.
Variable self : BlockerThread.

Lemma countdown_reaches fuel : forall w st,
  reaches abspath lower env self (Counting w) (trace st) (attempts st) ->
  let r := countdown fuel env w st in
  exists ph, reaches abspath lower env self ph (trace (snd r)) (attempts (snd r))
             /\ match fst r with
                | Ok _ => ph = Entering
                | Raise _ => False
                | OutOfFuel => exists w', ph = Counting w'
                end.
Proof.
  induction fuel as [| fuel IH]; intros w st H; cbn [countdown].
  - exec. exists (Counting w). split; [exact H | eauto].
  - destruct (Z.ltb_spec 0 w) as [W | W].
    + exec. destruct (flag env (List.length (trace st))) eqn:F; exec.
      * unfold sleep. change (1 <? 0) with false. exec. apply IH. cbn. flatten_trace. apply reach_count_tick; assumption.
      * exists Entering. split; [ | reflexivity].
        apply reach_count_stop with (w := w); assumption.
    + exec. exists Entering. split; [ | reflexivity].
      apply reach_count_done with (w := w); assumption.
Qed.

Lemma pass_result_fuel ps : pass_result abspath lower self ps <> OutOfFuel.
Proof.
  induction ps as [| p rest IH]; cbn; [discriminate | ].
  destruct (handled_result_cases abspath lower self p) as [E | [x [E _]]]; rewrite E;
    [assumption | discriminate].
Qed.

Lemma blocking_loop_reaches end_time fuel : forall st,
  reaches abspath lower env self (Blocking end_time) (trace st) (attempts st) ->
  let r := blocking_loop abspath lower fuel env self end_time st in
  exists ph, reaches abspath lower env self ph (trace (snd r)) (attempts (snd r))
             /\ match fst r with
                | Ok _ => ph = Leaving
                | Raise x => ph = Crashed x
                | OutOfFuel => ph = Blocking end_time
                end.
Proof.
  induction fuel as [| fuel IH]; intros st H; cbn [blocking_loop].
  - exec. exists (Blocking end_time). split; [exact H | reflexivity].
  - exec. destruct (Z.ltb_spec (clock env (List.length (trace st))) end_time) as [T | T].
    + exec. destruct (flag env (List.length (trace st ++ [Now (clock env (List.length (trace st)))]))) eqn:F; exec.
      * match goal with |- context [sweep abspath lower env self ?s] =>
          pose proof (sweep_extends abspath lower env self s) as S;
          destruct (sweep abspath lower env self s) as [r st'] end.
        cbn in S. destruct S as (Hr & Ht & Ha & Hb). positions.
        pose proof (reach_tick abspath lower env self end_time (trace st) (attempts st) H T F) as Tick.
        pose proof (reach_bad_sleep abspath lower env self end_time (trace st) (attempts st)
                      H T F) as Bad.
        pose proof (fun x => reach_crash abspath lower env self end_time (trace st) (attempts st)
                                x H T F) as Crash.
        cbn zeta in Tick, Crash, Bad.
        destruct r as [[] | x |]; exec.
        -- unfold sleep. destruct (Z.ltb_spec (check_frequency self) 0) as [Neg | Pos]; exec.
           ++ exists (Crashed ValueError). split; [ | reflexivity].
              rewrite Ht, Ha, Hb. positions. flatten_trace.
              specialize (Bad (eq_sym Hr) Neg). revert Bad. flatten_trace. exact (fun T => T).
           ++ apply IH. cbn. rewrite Ht, Ha, Hb. positions. flatten_trace.
              specialize (Tick (eq_sym Hr) Pos). revert Tick. flatten_trace. exact (fun T => T).
        -- exists (Crashed x). split; [ | reflexivity].
           rewrite Ht, Ha. flatten_trace.
           specialize (Crash x (eq_sym Hr)). revert Crash. flatten_trace. exact (fun T => T).
        -- exfalso. apply (pass_result_fuel _ (eq_sym Hr)).
      * exists Leaving. split; [ | reflexivity]. positions. flatten_trace.
        apply reach_stop with (end_time := end_time); assumption.
    + exec. exists Leaving. split; [ | reflexivity].
      apply reach_expired with (end_time := end_time); assumption.
Qed.

Lemma enforce_reaches fuel st :
  reaches abspath lower env self Entering (trace st) (attempts st) ->
  let r := enforce abspath lower fuel env self st in
  exists ph, reaches abspath lower env self ph (trace (snd r)) (attempts (snd r))
             /\ stands (fst r) ph.
Proof.
  intros H. pose proof (reach_enter abspath lower env self _ _ H) as E.
  cbn zeta in E. unfold notified in *. unfold enforce. exec.
  assert (L : forall s,
    reaches abspath lower env self (Blocking (clock env (List.length (trace st))
                                              + timedelta_minutes (duration_minutes self)))
      (trace s) (attempts s) ->
    let r := bind (blocking_loop abspath lower fuel env self
                     (clock env (List.length (trace st))
                      + timedelta_minutes (duration_minutes self)))
               (fun _ => bind (running env) (fun r0 : bool =>
                  if r0 then bind (log INFO FinishedBlocking)
                                  (fun _ => when (notify self) (send_notification FinishedBlocking))
                  else ret tt)) s in
    exists ph, reaches abspath lower env self ph (trace (snd r)) (attempts (snd r))
               /\ stands (fst r) ph).
  { intros s R. unfold bind at 1.
    destruct (blocking_loop_reaches _ fuel s R) as [ph [R' M]].
    destruct (blocking_loop abspath lower fuel env self _ s) as [[[] | x |] s']; cbn [fst snd] in *.
    - subst ph. exec. destruct (flag env (List.length (trace s'))) eqn:F; exec.
      + pose proof (reach_completed abspath lower env self _ _ R' F) as C.
        unfold notified in C. destruct (notify self); exec; flatten_trace;
          exists Returned; (split; [exact C | exact I]).
      + exists Returned. split; [ | exact I]. apply reach_stopped; assumption.
    - subst ph. exists (Crashed x). split; [assumption | reflexivity].
    - subst ph. eexists. split; [eassumption | exact I]. }
  destruct (notify self); exec; apply L; cbn; flatten_trace; revert E; flatten_trace;
    exact (fun E => E).
Qed.

(** Every run stands at a phase that the transitions reach, with the trace
    and the attempts that they give. *)
Lemma run_reaches fuel :
  let r := run_thread abspath lower fuel env self in
  exists ph, reaches abspath lower env self ph (trace (snd r)) (attempts (snd r))
             /\ stands (fst r) ph.
Proof.
  unfold run_thread, run.
  assert (Skip : scheduled self = None ->
    let r := enforce abspath lower fuel env self initial in
    exists ph, reaches abspath lower env self ph (trace (snd r)) (attempts (snd r))
               /\ stands (fst r) ph).
  { intros N. apply enforce_reaches. cbn. apply reach_unscheduled. exact N. }
  destruct (start_time self) as [s | ] eqn:S0;
    [ | unfold bind at 1; exec; apply Skip; unfold scheduled; rewrite S0; reflexivity].
  destruct (truthy s) eqn:Ts;
    [ | unfold bind at 1; exec; apply Skip; unfold scheduled; rewrite S0, Ts; reflexivity].
  clear Skip.
  assert (Sch : scheduled self = Some s) by (unfold scheduled; rewrite S0, Ts; reflexivity).
  unfold schedule. exec.
  destruct (strptime_HM s) as [hm | ] eqn:P; exec.
  - destruct (replace_date hm _ _ _) as [start | ] eqn:R; exec.
    + pose proof (reach_scheduled abspath lower env self s hm start Sch P R) as C.
      cbn zeta in C. unfold notified in C.
      destruct (notify self) eqn:N; exec.
      all: match goal with |- context [countdown ?f ?e ?w ?st] =>
             destruct (countdown_reaches f w st) as [ph [R' M]]; [exact C | ];
             destruct (countdown f e w st) as [[[] | x |] st'] end.
      all: cbn [fst snd] in *; exec.
      all: try contradiction.
      all: try (subst ph; apply enforce_reaches; assumption).
      all: destruct M as [w' ->]; eexists; (split; [eassumption | exact I]).
    + pose proof (reach_bad_date abspath lower env self s hm Sch P R) as C.
      unfold notified in C. destruct (notify self); exec; exists Returned; (split; [exact C | exact I]).
  - pose proof (reach_bad_format abspath lower env self s Sch P) as C.
    unfold notified in C. destruct (notify self); exec; exists Returned; (split; [exact C | exact I]).
Qed.

End Soundness.

(** ** Invariants of the transition system *)

Section Invariants.

Variables abspath lower : string -> string.
Variable env : Env.
Variable self : BlockerThread.

(** *** Emissions *)

Lemma emitted_app tr evs : emitted (tr ++ evs) = emitted tr ++ emitted evs.
Proof. unfold emitted. apply flat_map_app. Qed.

Lemma emitted_notified m : emitted (notified self m) = [].
Proof. unfold notified. destruct (notify self); reflexivity. Qed.

Lemma emitted_sweep evs : forallb sweep_event evs = true -> emitted evs = [].
Proof.
  induction evs as [| e rest IH]; cbn; [reflexivity | ].
  intros H. apply andb_prop in H. destruct H as [He Hr].
  unfold emitted in *. rewrite (IH Hr). destruct e; try discriminate; reflexivity.
Qed.

Lemma emitted_pass ps : emitted (pass_events abspath lower self ps) = [].
Proof. apply emitted_sweep, pass_events_sweep. Qed.

Lemma sum_blocked_app ups ups' : sum_blocked (ups ++ ups') = sum_blocked ups + sum_blocked ups'.
Proof.
  unfold sum_blocked. induction ups as [| u rest IH]; cbn; [reflexivity | ].
  rewrite IH. lia.
Qed.

Lemma cumulative_snoc ups b a :
  cumulative ups -> 0 <= b -> a = sum_blocked ups + b -> cumulative (ups ++ [(b, a)]).
Proof.
  intros C Hb Ha n b' a' Hn.
  destruct (Nat.lt_ge_cases n (List.length ups)) as [L | L].
  - rewrite nth_error_app1 in Hn by assumption.
    rewrite firstn_app. replace (S n - List.length ups)%nat with O by lia.
    cbn [firstn]. rewrite app_nil_r. apply C. assumption.
  - rewrite nth_error_app2 in Hn by assumption.
    destruct (n - List.length ups)%nat as [| k] eqn:K;
      [ | destruct k; discriminate Hn].
    cbn in Hn. inversion Hn; subst b' a'.
    rewrite firstn_all2 by (rewrite length_app; cbn; lia).
    rewrite sum_blocked_app. unfold sum_blocked at 2. cbn. split; lia.
Qed.

Ltac unlet := repeat match goal with x := _ |- _ => subst x end.

Ltac emitted_norm :=
  rewrite ?emitted_app, ?emitted_notified, ?emitted_pass; cbn [emitted flat_map stats app];
  rewrite ?emitted_notified, ?emitted_pass, ?app_nil_r.

Lemma reaches_cumulative ph tr a :
  reaches abspath lower env self ph tr a ->
  cumulative (emitted tr)
  /\ match ph with Crashed _ => True | _ => a = sum_blocked (emitted tr) end.
Proof.
  induction 1 as
    [ N | s N P | s hm N P R | s hm start N P R
    | w tr a H IH W F | w tr a H IH W F | w tr a H IH W
    | tr a H IH
    | e tr a H IH T F Hr Fq | e tr a H IH T F Hr Fq
    | e tr a x H IH T F Hr | e tr a H IH T | e tr a H IH T F
    | tr a H IH F | tr a H IH F ];
    cbn zeta; unlet; try destruct IH as [C S]; emitted_norm.
  1-4: split; [intros [| n] b a; discriminate | reflexivity].
  - split; [apply cumulative_snoc; [assumption | lia | lia] | ].
    rewrite sum_blocked_app. unfold sum_blocked at 2. cbn. lia.
  - auto.
  - auto.
  - auto.
  - pose proof (pass_count_nonneg abspath lower self (process_table env (List.length tr + 2))).
    split; [apply cumulative_snoc; [assumption | lia | lia] | ].
    rewrite sum_blocked_app. unfold sum_blocked at 2. cbn. lia.
  - pose proof (pass_count_nonneg abspath lower self (process_table env (List.length tr + 2))).
    split; [apply cumulative_snoc; [assumption | lia | lia] | exact I].
  - auto.
  - auto.
  - auto.
  - auto.
  - auto.
Qed.

(** *** Termination requests *)

Lemma reaches_terminate_listed ph tr a p r :
  reaches abspath lower env self ph tr a ->
  In (Terminate p r) tr ->
  exists pos proc, In proc (process_table env pos) /\ pid proc = p
                   /\ listed abspath lower self proc.
Proof.
  induction 1; cbn zeta; unlet; unfold notified; rewrite ?in_app_iff; cbn [In].
  all: try (destruct (notify self); cbn [In]).
  all: intros; repeat match goal with
                      | H : _ \/ _ |- _ => destruct H
                      | H : False |- _ => contradiction
                      | H : _ = Terminate _ _ |- _ => discriminate H
                      | H : In _ (_ ++ _) |- _ => apply in_app_or in H
                      | H : In _ (_ :: _) |- _ => destruct H
                      | H : In _ [] |- _ => contradiction
                      end.
  all: try (match goal with IH : In _ ?tr -> _, H : In _ ?tr |- _ => exact (IH H) end).
  all: match goal with
       | H : In _ (pass_events _ _ _ ?ps) |- _ =>
           apply pass_terminate_listed in H; destruct H as [proc (Hin & Hp & L)]; eauto
       end.
Qed.

(** *** After a stop has been read *)

Lemma flag_mono n m : flag env n = false -> (n <= m)%nat -> flag env m = false.
Proof.
  unfold flag. destruct (stop_at env) as [k | ]; [ | discriminate].
  rewrite !Nat.ltb_ge. lia.
Qed.

Lemma after_stop_app tr evs :
  after_stop (tr ++ evs)
  = if existsb reads_stop tr then after_stop tr ++ evs else after_stop evs.
Proof.
  induction tr as [| e rest IH]; cbn; [reflexivity | ].
  destruct (reads_stop e); cbn; [reflexivity | exact IH].
Qed.

Lemma after_stop_quiet evs : forallb quiet evs = true -> forallb quiet (after_stop evs) = true.
Proof.
  induction evs as [| e rest IH]; cbn; [reflexivity | ].
  intros H. apply andb_prop in H. destruct H as [_ Hr].
  destruct (reads_stop e); auto.
Qed.

Lemma after_stop_none evs : existsb reads_stop evs = false -> after_stop evs = [].
Proof.
  induction evs as [| e rest IH]; cbn; [reflexivity | ].
  destruct (reads_stop e); cbn; [discriminate | exact IH].
Qed.

Lemma sweep_reads_no_stop evs :
  forallb sweep_event evs = true -> existsb reads_stop evs = false.
Proof.
  induction evs as [| e rest IH]; cbn; [reflexivity | ].
  intros H. apply andb_prop in H. destruct H as [He Hr]. rewrite (IH Hr).
  destruct e as [ | [] | | | | | | | | | ]; try discriminate; reflexivity.
Qed.

Lemma stop_inv_quiet tr evs :
  stop_inv env tr ->
  forallb quiet evs = true ->
  (existsb reads_stop evs = true -> flag env (List.length (tr ++ evs)) = false) ->
  stop_inv env (tr ++ evs).
Proof.
  intros [Q F] Qe Fe. split.
  - rewrite after_stop_app. destruct (existsb reads_stop tr).
    + rewrite forallb_app, Q, Qe. reflexivity.
    + apply after_stop_quiet. assumption.
  - rewrite existsb_app. destruct (existsb reads_stop tr); cbn.
    + intros _. apply flag_mono with (n := List.length tr); [auto | ].
      rewrite length_app. lia.
    + assumption.
Qed.

Lemma stop_inv_running tr evs :
  stop_inv env tr ->
  flag env (List.length tr) = true ->
  existsb reads_stop evs = false ->
  stop_inv env (tr ++ evs).
Proof.
  intros [Q F] T N.
  assert (E : existsb reads_stop tr = false).
  { destruct (existsb reads_stop tr); [ | reflexivity]. rewrite F in T by reflexivity. discriminate. }
  split.
  - rewrite after_stop_app, E, (after_stop_none _ N). reflexivity.
  - rewrite existsb_app, E, N. discriminate.
Qed.

Lemma flag_before n m : flag env m = true -> (n <= m)%nat -> flag env n = true.
Proof.
  intros T L. destruct (flag env n) eqn:F; [reflexivity | ].
  rewrite (flag_mono n m F L) in T. discriminate.
Qed.

Lemma reaches_stop_inv ph tr a :
  reaches abspath lower env self ph tr a -> stop_inv env tr.
Proof.
  induction 1 as
    [ N | s N P | s hm N P R | s hm start N P R
    | w tr a H IH W F | w tr a H IH W F | w tr a H IH W
    | tr a H IH
    | e tr a H IH T F Hr Fq | e tr a H IH T F Hr Fq
    | e tr a x H IH T F Hr | e tr a H IH T | e tr a H IH T F
    | tr a H IH F | tr a H IH F ];
    cbn zeta; unlet; unfold notified.
  1-4: destruct (notify self); split; cbn; (reflexivity || discriminate).
  - apply stop_inv_running; [assumption | assumption | reflexivity].
  - apply stop_inv_quiet; [assumption | reflexivity | ].
    intros _. apply flag_mono with (n := List.length tr); [assumption | ].
    rewrite length_app. lia.
  - assumption.
  - apply stop_inv_quiet; [assumption | | ]; destruct (notify self); cbn;
      (reflexivity || discriminate).
  - rewrite <- app_assoc. apply stop_inv_running; [assumption | | ].
    + apply flag_before with (m := (List.length tr + 1)%nat); [assumption | lia].
    + rewrite !existsb_app, (sweep_reads_no_stop _ (pass_events_sweep abspath lower self _)).
      reflexivity.
  - rewrite <- app_assoc. apply stop_inv_running; [assumption | | ].
    + apply flag_before with (m := (List.length tr + 1)%nat); [assumption | lia].
    + rewrite !existsb_app, (sweep_reads_no_stop _ (pass_events_sweep abspath lower self _)).
      reflexivity.
  - apply stop_inv_running; [assumption | | ].
    + apply flag_before with (m := (List.length tr + 1)%nat); [assumption | lia].
    + rewrite !existsb_app, (sweep_reads_no_stop _ (pass_events_sweep abspath lower self _)).
      reflexivity.
  - apply stop_inv_quiet; [assumption | reflexivity | discriminate].
  - apply stop_inv_quiet; [assumption | reflexivity | ].
    intros _. apply flag_mono with (n := (List.length tr + 1)%nat); [assumption | ].
    rewrite length_app. cbn. lia.
  - apply stop_inv_running; [assumption | assumption | ].
    destruct (notify self); reflexivity.
  - apply stop_inv_quiet; [assumption | reflexivity | ].
    intros _. apply flag_mono with (n := List.length tr); [assumption | ].
    rewrite length_app. lia.
Qed.


(** *** The time that the blocking loop emits *)

Lemma nth_error_keep {A} (l l' : list A) k x :
  nth_error l k = Some x -> nth_error (l ++ l') k = Some x.
Proof.
  intros H. rewrite nth_error_app1; [assumption | ].
  apply nth_error_Some. congruence.
Qed.

Lemma nth_error_app_cases {A} (l l' : list A) i x :
  nth_error (l ++ l') i = Some x ->
  nth_error l i = Some x
  \/ ((List.length l <= i)%nat /\ nth_error l' (i - List.length l) = Some x).
Proof.
  intros H. destruct (Nat.lt_ge_cases i (List.length l)) as [L | L].
  - left. rewrite nth_error_app1 in H; assumption.
  - right. rewrite nth_error_app2 in H; auto.
Qed.

Lemma started_at_keep tr evs j :
  started_at env self tr j -> started_at env self (tr ++ evs) j.
Proof. intros [A B]. split; apply nth_error_keep; assumption. Qed.

Lemma time_inv_app ph ph' tr evs :
  time_inv env self ph tr ->
  (forall v b a, ~ In (UpdateStats (PyInt v) b a) evs) ->
  (forall e, ph' = Blocking e -> ph = Blocking e) ->
  time_inv env self ph' (tr ++ evs).
Proof.
  intros [St Bl] N P. split.
  - intros i v b a Hi. apply nth_error_app_cases in Hi. destruct Hi as [Hi | [_ Hi]].
    + destruct (St i v b a Hi) as [j (S1 & S2 & S3 & S4)].
      exists j. repeat split; try assumption.
      * apply started_at_keep. assumption.
      * apply started_at_keep. assumption.
      * apply nth_error_keep. assumption.
    + apply nth_error_In in Hi. exfalso. exact (N v b a Hi).
  - intros e E. destruct (Bl e (P e E)) as [j [S1 S2]].
    exists j. split; [apply started_at_keep | ]; assumption.
Qed.

Lemma time_inv_phase ph ph' tr :
  time_inv env self ph tr ->
  (forall e, ph' = Blocking e -> ph = Blocking e) ->
  time_inv env self ph' tr.
Proof.
  intros [St Bl] P. split; [exact St | ].
  intros e E. exact (Bl e (P e E)).
Qed.

Lemma time_inv_nil ph : (forall e, ph <> Blocking e) -> time_inv env self ph [].
Proof.
  intros N. split.
  - intros [| i] v b a Hi; discriminate Hi.
  - intros e E. destruct (N e E).
Qed.

Lemma time_inv_emit e tr b a :
  time_inv env self (Blocking e) tr ->
  let t' := clock env (List.length tr) in
  time_inv env self (Blocking e)
    (tr ++ [Now t'; UpdateStats (PyInt (int_total_seconds (e - t'))) b a]).
Proof.
  intros [St Bl] t'. split.
  - intros i v b0 a0 Hi. apply nth_error_app_cases in Hi. destruct Hi as [Hi | [L Hi]].
    + destruct (St i v b0 a0 Hi) as [j (S1 & S2 & S3 & S4)].
      exists j. repeat split; try assumption.
      * apply started_at_keep. assumption.
      * apply started_at_keep. assumption.
      * apply nth_error_keep. assumption.
    + destruct (i - List.length tr)%nat as [| [| k]] eqn:K; cbn in Hi; try discriminate Hi.
      * inversion Hi; subst v b0 a0.
        destruct (Bl e eq_refl) as [j [S1 S2]].
        replace (i - 1)%nat with (List.length tr) by lia.
        exists j. repeat split.
        -- apply started_at_keep. assumption.
        -- apply started_at_keep. assumption.
        -- lia.
        -- rewrite nth_error_app2, Nat.sub_diag by lia. reflexivity.
        -- subst e. reflexivity.
      * destruct k; discriminate Hi.
  - intros e' E. destruct (Bl e' E) as [j [S1 S2]].
    exists j. split; [apply started_at_keep | ]; assumption.
Qed.

Lemma sweep_no_stats evs v b a :
  forallb sweep_event evs = true -> ~ In (UpdateStats (PyInt v) b a) evs.
Proof.
  intros H I. rewrite forallb_forall in H. specialize (H _ I). discriminate H.
Qed.

Ltac no_stats :=
  let v := fresh in let b := fresh in let a := fresh in let I := fresh in
  intros v b a I; unfold notified in I;
  repeat match goal with
         | H : In _ (_ ++ _) |- _ => apply in_app_or in H; destruct H as [H | H]
         | H : In _ (if ?c then _ else _) |- _ => destruct c
         | H : In _ (_ :: _) |- _ => destruct H as [H | H]; [discriminate H | ]
         | H : In _ [] |- _ => destruct H
         | H : In _ (pass_events _ _ _ _) |- _ =>
             exact (sweep_no_stats _ _ _ _ (pass_events_sweep _ _ _ _) H)
         end.

Lemma reaches_time_inv ph tr a :
  reaches abspath lower env self ph tr a -> time_inv env self ph tr.
Proof.
  induction 1 as
    [ N | s N P | s hm N P R | s hm start N P R
    | w tr a H IH W F | w tr a H IH W F | w tr a H IH W
    | tr a H IH
    | e tr a H IH T F Hr Fq | e tr a H IH T F Hr Fq
    | e tr a x H IH T F Hr | e tr a H IH T | e tr a H IH T F
    | tr a H IH F | tr a H IH F ];
    cbn zeta; unlet.
  - apply time_inv_nil. discriminate.
  - apply (time_inv_app Returned Returned []); [apply time_inv_nil | no_stats | ]; discriminate.
  - apply (time_inv_app Returned Returned []); [apply time_inv_nil | no_stats | ]; discriminate.
  - apply (time_inv_app Returned _ []); [apply time_inv_nil | no_stats | ]; discriminate.
  - apply (time_inv_app (Counting w)); [assumption | no_stats | discriminate].
  - apply (time_inv_app (Counting w)); [assumption | no_stats | discriminate].
  - apply (time_inv_app (Counting w) Entering tr []) in IH; [ | no_stats | discriminate].
    rewrite app_nil_r in IH. exact IH.
  - pose proof (time_inv_app Entering Entering tr
                  ([Now (clock env (List.length tr));
                    Log INFO (StartedBlocking (duration_minutes self))]
                   ++ notified self (StartedBlocking (duration_minutes self))) IH) as [St _];
      [no_stats | auto | ].
    split; [exact St | ].
    intros e E. inversion E. exists (List.length tr). split; [ | reflexivity].
    split.
    + rewrite nth_error_app2, Nat.sub_diag by lia. reflexivity.
    + rewrite nth_error_app2 by lia. replace (S (List.length tr) - List.length tr)%nat with 1%nat by lia.
      reflexivity.
  - match goal with |- time_inv _ _ _ (?l ++ [?x; ?y; ?z]) =>
      replace (l ++ [x; y; z]) with ((l ++ [x; y]) ++ [z])
        by (rewrite <- app_assoc; reflexivity) end.
    apply (time_inv_app (Blocking e)); [ | no_stats | auto].
    apply time_inv_emit.
    apply (time_inv_app (Blocking e)); [assumption | no_stats | auto].
  - apply (time_inv_phase (Blocking e)); [ | discriminate].
    apply time_inv_emit.
    apply (time_inv_app (Blocking e)); [assumption | no_stats | auto].
  - apply (time_inv_app (Blocking e)); [assumption | no_stats | discriminate].
  - apply (time_inv_app (Blocking e)); [assumption | no_stats | discriminate].
  - apply (time_inv_app (Blocking e)); [assumption | no_stats | discriminate].
  - apply (time_inv_app Leaving); [assumption | no_stats | discriminate].
  - apply (time_inv_app Leaving); [assumption | no_stats | discriminate].
Qed.

End Invariants.

(** ** The sweep: what is counted, what is checked, what is terminated *)

Section SweepClaims.

Variables abspath lower : string -> string.

(** C1, as the code has it: a block is counted only once the wait for the
    exit has returned.  In a pass over processes that raise nothing but soft
    failures, the pass returns, and what it does and what it counts is what
    the loop body does and counts for each process.  For no process is more
    counted than waits have returned.  A process whose wait times out is
    counted zero times, and when its termination was requested, the timeout
    is logged as the failure of that process. *)
Theorem sweep_counts_confirmed_exits env self st :
  Forall cooperative (process_table env (List.length (trace st))) ->
  let ps := process_table env (List.length (trace st)) in
  let r := sweep abspath lower env self st in
  let events := handled_events abspath lower self in
  let count := handled_count abspath lower self in
  fst r = Ok tt
  /\ trace (snd r) = trace st ++ ProcessIter (map pid ps) :: flat_map events ps
  /\ blocked_apps (snd r) = fold_right Z.add 0 (map count ps)
  /\ attempts (snd r) = attempts st + blocked_apps (snd r)
  /\ forall p, In p ps ->
       0 <= count p <= Z.of_nat (List.length (filter confirmed (events p)))
       /\ ((forall i, wait p i = Raises TimeoutExpired) ->
           count p = 0
           /\ (In (Terminate (pid p) (Returns tt)) (events p) ->
               In (Wait (pid p) (Raises TimeoutExpired)) (events p)
               /\ In (Log WARNING (FailedToTerminate (pid p) TimeoutExpired)) (events p))).
Proof.
  intros C ps r events count.
  destruct (sweep_extends abspath lower env self st) as (Hr & Ht & Ha & Hb).
  fold ps in Hr, Ht, Ha, Hb. fold r in Hr, Ht, Ha, Hb.
  destruct (pass_cooperative abspath lower self ps C) as (Ok_ & Ev & Cn).
  repeat split.
  - congruence.
  - rewrite Ht, Ev. reflexivity.
  - rewrite Hb, Cn. reflexivity.
  - rewrite Ha, Hb. reflexivity.
  - apply handled_count_range.
  - apply handled_count_confirmed.
  - apply handled_count_timeout. assumption.
  - apply handled_timeout_logged; assumption.
  - apply handled_timeout_logged; assumption.
Qed.

(** C2 fails in the code.  A process that is on the name list and on no
    path list is asked to terminate, and its exit is confirmed.  The log
    entry of line 132 then reads [proc.name()] once more, after the exit;
    behind a handle that does not keep the name this raises
    [NoSuchProcess], so that the entry is not written, the process is not
    counted, and "Failed to terminate" is logged for a process that was
    terminated.  The check by path reads the name before it asks. *)
Theorem name_match_exits_uncounted self proc nm st :
  app_paths self = [] ->
  In (lower nm) (process_names self) ->
  name proc 0 = Returns nm ->
  terminate proc 1 = Returns tt ->
  wait proc 2 = Returns tt ->
  name proc 3 = Raises NoSuchProcess ->
  let r := sweep_process abspath lower self proc st in
  fst r = Ok tt
  /\ trace (snd r)
     = trace st ++ [Name (pid proc) (Returns nm); Terminate (pid proc) (Returns tt);
                    Wait (pid proc) (Returns tt); Name (pid proc) (Raises NoSuchProcess);
                    Log WARNING (FailedToTerminate (pid proc) NoSuchProcess)]
  /\ blocked_apps (snd r) = blocked_apps st
  /\ attempts (snd r) = attempts st.
Proof.
  intros P I N0 T1 W2 N3 r.
  destruct (sweep_process_extends abspath lower self proc st) as [Hr (Ht & Ha & Hb)].
  fold r in Hr, Ht, Ha, Hb.
  destruct (handled_name_gone abspath lower self proc nm P I N0 T1 W2 N3) as (R & E & Cn).
  rewrite Hr, Ht, Ha, Hb, R, E, Cn. repeat split; lia.
Qed.

(** X4.  Over processes that raise nothing but what the sweep catches,
    the loop over the processes returns, and what it does with a process is
    what the loop body does with that process alone.  The first call that
    raises ends the handling of its process, with a warning and without the
    checks that were still to come.  An executable path that reads as empty
    is no match by path, and the name is checked all the same. *)
Theorem pass_handles_each_process_alone self procs st :
  Forall cooperative procs ->
  let r := for_each procs (sweep_process abspath lower self) st in
  fst r = Ok tt
  /\ trace (snd r) = trace st ++ flat_map (handled_events abspath lower self) procs
  /\ (forall proc, In proc procs ->
        raise_ends (pid proc) (handled_events abspath lower self proc))
  /\ (forall proc n, In proc procs ->
        nonempty (app_paths self) = true ->
        exe proc 0 = Returns "" ->
        name proc 1 = Returns n ->
        In (lower n) (process_names self) ->
        In (Terminate (pid proc) (terminate proc 2)) (handled_events abspath lower self proc)).
Proof.
  intros C r.
  destruct (for_each_extends abspath lower self procs st) as [Hr (Ht & _ & _)].
  fold r in Hr, Ht.
  destruct (pass_cooperative abspath lower self procs C) as (Ok_ & Ev & _).
  repeat split.
  - congruence.
  - rewrite Ht, Ev. reflexivity.
  - intros proc _. apply handled_raise_ends.
  - intros proc n _. apply handled_empty_exe.
Qed.

End SweepClaims.

(** ** The run: statistics, stopping, scheduling *)

(** *** The float of [total_seconds()]

    What [int] makes of the double: the whole seconds of the span, rounded
    towards zero, as long as the span is shorter than [2^34] seconds; a
    span of a second or more never becomes zero, whatever its length. *)

Lemma nearest_bounds n d :
  0 < d -> 2 * (nearest n d * d) <= 2 * n + d /\ 2 * n <= 2 * (nearest n d * d) + d.
Proof.
  intros D. unfold nearest. cbv zeta.
  pose proof (Z.div_mod n d ltac:(lia)) as E.
  pose proof (Z.mod_pos_bound n d D) as B.
  set (q := n / d) in *. set (r := n mod d) in *.
  destruct (Z.ltb_spec (2 * r) d); [nia | ].
  destruct (Z.ltb_spec d (2 * r)); [nia | ].
  destruct (Z.even q); nia.
Qed.

Lemma nearest_lower n d c : 0 < d -> d * c <= n -> c <= nearest n d.
Proof.
  intros D L. pose proof (nearest_bounds n d D) as [_ U].
  assert (2 * (d * c) < 2 * (nearest n d * d) + 2 * d) by lia.
  nia.
Qed.

Lemma quotient_log2_le a b k :
  0 < a -> 0 < b -> 0 <= k -> a < 2 ^ k * b -> quotient_log2 a b < k.
Proof.
  intros A B K L. unfold quotient_log2. destruct (Z.leb_spec b a) as [H | H].
  - assert (Q : 0 < a / b) by (apply Z.div_str_pos; lia).
    apply Z.log2_lt_pow2; [exact Q | ].
    apply Z.div_lt_upper_bound; [exact B | rewrite Z.mul_comm; exact L].
  - assert (Q : 1 < (b + a - 1) / a)
      by (assert (2 <= (b + a - 1) / a) by (apply Z.div_le_lower_bound; lia); lia).
    pose proof (Z.log2_up_pos _ Q). lia.
Qed.

Lemma trunc_shift a d s :
  0 <= a -> 0 < d -> 0 <= s -> d < 2 * 2 ^ s ->
  nearest (a * 2 ^ s) d / 2 ^ s = a / d.
Proof.
  intros A D S P.
  assert (P0 : 0 < 2 ^ s) by (apply Z.pow_pos_nonneg; lia).
  set (p := 2 ^ s) in *.
  pose proof (nearest_bounds (a * p) d D) as [L U].
  set (m := nearest (a * p) d) in *.
  pose proof (Z.div_mod a d ltac:(lia)) as E.
  pose proof (Z.mod_pos_bound a d D) as B.
  set (k := a / d) in *. set (r := a mod d) in *.
  symmetry. apply (Z.div_unique m p k (m - p * k)); [ | ring].
  left. split; nia.
Qed.

Lemma int_of_true_divide_exact a :
  0 <= a < 2 ^ 34 * us_per_second ->
  int_of_float (true_divide a us_per_second) = a / us_per_second.
Proof.
  intros [A B]. unfold true_divide. destruct (Z.eqb_spec a 0) as [-> | N]; [reflexivity | ].
  cbv zeta. unfold int_of_float.
  pose proof (quotient_log2_le a us_per_second 34 ltac:(lia) eq_refl ltac:(lia) B) as Q.
  set (e := quotient_log2 a us_per_second - 52) in *.
  destruct (Z.leb_spec 0 e) as [H | H]; [lia | ].
  apply trunc_shift; [exact A | reflexivity | lia | ].
  assert (P : 2 ^ 19 <= 2 ^ (- e)) by (apply Z.pow_le_mono_r; lia).
  change (2 ^ 19) with 524288 in P. unfold us_per_second. lia.
Qed.

Lemma int_of_true_divide_pos a b :
  0 < b -> b <= a -> 1 <= int_of_float (true_divide a b).
Proof.
  intros B L. unfold true_divide. destruct (Z.eqb_spec a 0) as [-> | N]; [lia | ].
  cbv zeta. unfold int_of_float, quotient_log2.
  destruct (Z.leb_spec b a) as [_ | ?]; [ | lia].
  assert (Q : 0 < a / b) by (apply Z.div_str_pos; lia).
  pose proof (Z.log2_spec _ Q) as [S _].
  pose proof (Z.log2_nonneg (a / b)) as G.
  pose proof (Z.mul_div_le a b B) as M.
  set (l := Z.log2 (a / b)) in *.
  destruct (Z.leb_spec 0 (l - 52)) as [H | H].
  - assert (P : 0 < 2 ^ (l - 52)) by (apply Z.pow_pos_nonneg; lia).
    assert (E : 2 ^ (l - 52) <= 2 ^ l) by (apply Z.pow_le_mono_r; lia).
    assert (1 <= nearest a (b * 2 ^ (l - 52))) by (apply nearest_lower; nia).
    nia.
  - assert (P : 0 < 2 ^ (- (l - 52))) by (apply Z.pow_pos_nonneg; lia).
    assert (2 ^ (- (l - 52)) <= nearest (a * 2 ^ (- (l - 52))) b)
      by (apply nearest_lower; [exact B | nia]).
    apply Z.div_le_lower_bound; lia.
Qed.

Lemma int_total_seconds_exact d :
  Z.abs d < 2 ^ 34 * us_per_second -> int_total_seconds d = Z.quot d us_per_second.
Proof.
  intros B. unfold int_total_seconds.
  rewrite int_of_true_divide_exact by lia.
  destruct (Z.abs_spec d) as [[P E] | [P E]]; rewrite E.
  - rewrite Z.quot_div_nonneg by (unfold us_per_second; lia).
    destruct (Z.eq_dec d 0) as [-> | N]; [reflexivity | ].
    rewrite Z.sgn_pos by lia. lia.
  - rewrite Z.sgn_neg by lia.
    pose proof (Z.quot_opp_l d us_per_second ltac:(discriminate)) as O.
    rewrite Z.quot_div_nonneg in O by (unfold us_per_second; lia). lia.
Qed.

Lemma int_total_seconds_sign d : 0 <= int_total_seconds d <-> - us_per_second < d.
Proof.
  destruct (Z_lt_le_dec (- us_per_second) d) as [L | L].
  - split; [auto | intros _].
    destruct (Z_lt_le_dec d 0) as [N | N].
    + rewrite int_total_seconds_exact by (unfold us_per_second in *; lia).
      assert (Q : Z.quot d us_per_second = 0)
        by (apply Z.quot_small_iff; unfold us_per_second in *; lia).
      lia.
    + unfold int_total_seconds.
      destruct (Z.eq_dec d 0) as [-> | P]; [cbn; lia | ].
      rewrite Z.sgn_pos by lia.
      destruct (Z_lt_le_dec (Z.abs d) us_per_second) as [S | S].
      * rewrite int_of_true_divide_exact by (unfold us_per_second in *; lia).
        pose proof (Z.div_pos (Z.abs d) us_per_second ltac:(lia) eq_refl). lia.
      * pose proof (int_of_true_divide_pos (Z.abs d) us_per_second eq_refl S). lia.
  - split; [intros H | lia]. exfalso.
    unfold int_total_seconds in H. rewrite Z.sgn_neg in H by (unfold us_per_second in *; lia).
    pose proof (int_of_true_divide_pos (Z.abs d) us_per_second eq_refl ltac:(lia)). lia.
Qed.

Lemma int_total_seconds_floor d :
  0 <= d < 2 ^ 34 * us_per_second -> int_total_seconds d = Z.max 0 (d / us_per_second).
Proof.
  intros B. rewrite int_total_seconds_exact by lia.
  rewrite Z.quot_div_nonneg by (unfold us_per_second; lia).
  pose proof (Z.div_pos d us_per_second ltac:(lia) eq_refl). lia.
Qed.

Lemma sum_blocked_firstn_le ups :
  (forall u, In u ups -> 0 <= fst u) ->
  forall m k, sum_blocked (firstn m ups) <= sum_blocked (firstn (m + k) ups).
Proof.
  unfold sum_blocked. induction ups as [| u rest IH]; intros P m k.
  - rewrite !firstn_nil. lia.
  - destruct m as [| m]; cbn [Nat.add firstn map fold_right].
    + clear IH. revert P. generalize (u :: rest). intros l P.
      revert k. induction l as [| x l IHl]; intros k.
      * rewrite firstn_nil. cbn. lia.
      * destruct k; cbn; [lia | ].
        assert (0 <= fst x) by (apply P; left; reflexivity).
        assert (0 <= fold_right Z.add 0 (map fst (firstn k l)))
          by (apply IHl; intros; apply P; right; assumption).
        lia.
    + assert (fold_right Z.add 0 (map fst (firstn m rest))
              <= fold_right Z.add 0 (map fst (firstn (m + k) rest)))
        by (apply IH; intros; apply P; right; assumption).
      lia.
Qed.

Lemma cumulative_monotone ups :
  cumulative ups ->
  forall i j bi ai bj aj,
    (i <= j)%nat ->
    nth_error ups i = Some (bi, ai) ->
    nth_error ups j = Some (bj, aj) ->
    ai <= aj.
Proof.
  intros C i j bi ai bj aj L Hi Hj.
  destruct (C _ _ _ Hi) as [_ ->]. destruct (C _ _ _ Hj) as [_ ->].
  replace (S j) with (S i + (j - i))%nat by lia.
  apply sum_blocked_firstn_le.
  intros [b a] Hin. apply In_nth_error in Hin. destruct Hin as [n Hn].
  destruct (C _ _ _ Hn) as [Hb _]. exact Hb.
Qed.

Section RunClaims.

Variables abspath lower : string -> string.

(** C4, as the code has it: the time that an update of the blocking loop
    carries is [int] of the [total_seconds()] of the span from the clock,
    read just before the update, to the end time, and it is not cut off at
    zero.  It is negative as soon as the pass has run a second or more past
    the end time.  For spans shorter than [2^34] seconds it is the span in
    whole seconds rounded towards zero, which is [max 0] of the span while
    the end time has not passed. *)
Theorem time_remaining_truncated fuel env self i v b a :
  nth_error (trace (snd (run_thread abspath lower fuel env self))) i
  = Some (UpdateStats (PyInt v) b a) ->
  exists j,
    let tr := trace (snd (run_thread abspath lower fuel env self)) in
    let end_time := clock env j + timedelta_minutes (duration_minutes self) in
    let now_ := clock env (i - 1) in
    started_at env self tr j
    /\ (0 < i)%nat
    /\ nth_error tr (i - 1) = Some (Now now_)
    /\ v = int_total_seconds (end_time - now_)
    /\ (0 <= v <-> now_ < end_time + us_per_second)
    /\ (Z.abs (end_time - now_) < 2 ^ 34 * us_per_second ->
        v = Z.quot (end_time - now_) us_per_second)
    /\ (now_ <= end_time < now_ + 2 ^ 34 * us_per_second ->
        v = Z.max 0 ((end_time - now_) / us_per_second)).
Proof.
  intros Hi.
  destruct (run_reaches abspath lower env self fuel) as [ph [R _]].
  destruct (reaches_time_inv abspath lower env self _ _ _ R) as [St _].
  destruct (St i v b a Hi) as [j (S1 & S2 & S3 & S4)].
  exists j. cbn zeta. repeat split; try assumption; try apply S1.
  - subst v. rewrite int_total_seconds_sign. lia.
  - subst v. rewrite int_total_seconds_sign. lia.
  - intros L. subst v. apply int_total_seconds_exact. exact L.
  - intros L. subst v. apply int_total_seconds_floor. lia.
Qed.

(** C5: in no run, at no tick, is a process asked to terminate unless some
    reading of its path is on the path list or some reading of its name is
    on the name list. *)
Theorem unlisted_never_terminated fuel env self p r :
  (forall pos proc, In proc (process_table env pos) -> pid proc = p ->
                    ~ listed abspath lower self proc) ->
  ~ In (Terminate p r) (trace (snd (run_thread abspath lower fuel env self))).
Proof.
  intros U I.
  destruct (run_reaches abspath lower env self fuel) as [ph [R _]].
  destruct (reaches_terminate_listed abspath lower env self _ _ _ p r R I)
    as [pos [proc (Hin & Hp & L)]].
  exact (U pos proc Hin Hp L).
Qed.

(** C6: in every run, for every emitted update, the cumulative attempts are
    the sum of the blocks of all updates emitted so far, this one included,
    and from one update to any later one they do not decrease. *)
Theorem attempts_cumulative fuel env self :
  let ups := emitted (trace (snd (run_thread abspath lower fuel env self))) in
  (forall n b a, nth_error ups n = Some (b, a) -> a = sum_blocked (firstn (S n) ups))
  /\ (forall i j bi ai bj aj,
        (i <= j)%nat ->
        nth_error ups i = Some (bi, ai) ->
        nth_error ups j = Some (bj, aj) ->
        ai <= aj).
Proof.
  intros ups.
  destruct (run_reaches abspath lower env self fuel) as [ph [R _]].
  destruct (reaches_cumulative abspath lower env self _ _ _ R) as [C _].
  fold ups in C. split.
  - intros n b a Hn. apply (C n b a Hn).
  - apply cumulative_monotone. exact C.
Qed.

(** C8, as the code has it: with a start time of ASCII characters that
    [strptime] refuses, the run logs the error, notifies it if notifications are on, and returns:
    no clock is read, no process is enumerated, nothing is terminated and no
    update is emitted.  The consumer receives [finished], the signal without
    an argument that ends every run, and nothing else. *)
Theorem malformed_start_fails_fast fuel env self s :
  start_time self = Some s ->
  truthy s = true ->
  ascii_text s ->
  strptime_HM s = None ->
  run_thread abspath lower fuel env self
  = (Ok tt, {| trace := Log ERROR IncorrectTimeFormat :: notified self IncorrectTimeFormat;
               attempts := 0; blocked_apps := 0; calls := 0 |})
  /\ Controller.signals (run_thread abspath lower fuel env self) = [Controller.finished].
Proof.
  intros S0 T _ P.
  assert (E : run_thread abspath lower fuel env self
              = (Ok tt, {| trace := Log ERROR IncorrectTimeFormat
                                    :: notified self IncorrectTimeFormat;
                           attempts := 0; blocked_apps := 0; calls := 0 |})).
  { unfold run_thread, run, schedule, notified. rewrite S0, T. exec. rewrite P. exec.
    destruct (notify self); reflexivity. }
  split; [exact E | ].
  rewrite E. unfold Controller.signals, notified. cbn.
  destruct (notify self); reflexivity.
Qed.

(** C9, as the code has it: every turn of the countdown emits the remaining
    time, sleeps one second, whatever the poll interval is, and takes one
    second off the remaining time, without reading the clock.  The events of
    a countdown are [n] such turns and, if a stop ended it, the read of the
    flag. *)
Theorem countdown_steps fuel env w st :
  exists n tail,
    trace (snd (countdown fuel env w st)) = trace st ++ count_events n w (attempts st) ++ tail
    /\ (tail = [] \/ tail = [Running false]).
Proof.
  revert w st. induction fuel as [| fuel IH]; intros w st; cbn [countdown].
  - exists O, []. exec. rewrite app_nil_r. auto.
  - destruct (Z.ltb_spec 0 w) as [W | W]; exec.
    + destruct (flag env (List.length (trace st))) eqn:F; exec.
      * unfold sleep. change (1 <? 0) with false. exec.
        match goal with |- context [countdown fuel env ?w' ?s] =>
          destruct (IH w' s) as [n [tail [E T]]] end.
        exists (S n), tail. split; [ | exact T].
        rewrite E. cbn [trace attempts count_events]. flatten_trace. reflexivity.
      * exists O, [Running false]. auto.
    + exists O, []. rewrite app_nil_r. auto.
Qed.


End RunClaims.

(** ** The properties on concrete runs *)

Import Examples.

Lemma stubborn_cooperative p path nm : cooperative (stubborn p path nm).
Proof. intros i. cbn. auto. Qed.

Lemma steady_cooperative p path nm : cooperative (steady p path nm).
Proof. intros i. cbn. destruct (i <=? 3)%nat; cbn; auto. Qed.

Lemma vanishing_cooperative p path nm : cooperative (vanishing p path nm).
Proof. intros i. cbn. destruct (i <=? 2)%nat, (i <=? 3)%nat; cbn; auto. Qed.

Lemma guarded_cooperative p nm : cooperative (guarded p nm).
Proof. intros i. cbn. auto. Qed.

(** C1 as the spec states it fails: the process named Calc is on the name
    list, it is asked to terminate and its wait times out; the pass returns,
    and no attempt is counted for it. *)
Lemma timed_out_wait_counts_nothing :
  sweep abspath lower nobody_stops by_name initial
  = (Ok tt, {| trace := [ProcessIter [7]; Name 7 (Returns "Calc"); Terminate 7 (Returns tt);
                         Wait 7 (Raises TimeoutExpired);
                         Log WARNING (FailedToTerminate 7 TimeoutExpired)];
               attempts := 0; blocked_apps := 0; calls := 3 |}).
Proof. reflexivity. Qed.

Lemma sweep_counts_confirmed_exits_witness :
  let p := stubborn 7 "/usr/bin/calc" "Calc" in
  Forall cooperative (process_table nobody_stops 0)
  /\ In p (process_table nobody_stops 0)
  /\ (forall i, wait p i = Raises TimeoutExpired)
  /\ In (Terminate 7 (Returns tt)) (handled_events abspath lower by_name p)
  /\ fst (sweep abspath lower nobody_stops by_name initial) = Ok tt
  /\ handled_count abspath lower by_name p = 0
  /\ In (Log WARNING (FailedToTerminate 7 TimeoutExpired))
        (handled_events abspath lower by_name p).
Proof.
  cbv zeta.
  assert (C : Forall cooperative (process_table nobody_stops 0))
    by (constructor; [apply stubborn_cooperative | constructor]).
  assert (I : In (stubborn 7 "/usr/bin/calc" "Calc") (process_table nobody_stops 0))
    by (left; reflexivity).
  assert (W : forall i, wait (stubborn 7 "/usr/bin/calc" "Calc") i = Raises TimeoutExpired)
    by reflexivity.
  assert (T : In (Terminate 7 (Returns tt))
                (handled_events abspath lower by_name (stubborn 7 "/usr/bin/calc" "Calc")))
    by (right; left; reflexivity).
  destruct (sweep_counts_confirmed_exits abspath lower nobody_stops by_name initial C)
    as (R & _ & _ & _ & Each).
  destruct (Each _ I) as (_ & Z0). destruct (Z0 W) as (N & L). destruct (L T) as (_ & G).
  repeat split; assumption.
Defined.

(** Where C2 fails: the process named Calc is on the name list, exits when
    it is asked to, and cannot give its name any more.  It is terminated
    and not counted. *)
Lemma name_match_exits_uncounted_witness :
  let proc := vanishing 7 "/usr/bin/calc" "Calc" in
  app_paths by_name = []
  /\ In (lower "Calc") (process_names by_name)
  /\ name proc 0 = Returns "Calc"
  /\ terminate proc 1 = Returns tt
  /\ wait proc 2 = Returns tt
  /\ name proc 3 = Raises NoSuchProcess
  /\ sweep_process abspath lower by_name proc initial
     = (Ok tt, {| trace := [Name 7 (Returns "Calc"); Terminate 7 (Returns tt);
                            Wait 7 (Returns tt); Name 7 (Raises NoSuchProcess);
                            Log WARNING (FailedToTerminate 7 NoSuchProcess)];
                  attempts := 0; blocked_apps := 0; calls := 4 |})
  /\ blocked_apps (snd (sweep_process abspath lower by_name proc initial)) = 0.
Proof.
  cbv zeta.
  assert (I : In (lower "Calc") (process_names by_name)) by (left; reflexivity).
  split; [reflexivity | split; [exact I | ]]. do 5 (split; [reflexivity | ]).
  destruct (name_match_exits_uncounted abspath lower by_name
              (vanishing 7 "/usr/bin/calc" "Calc") "Calc" initial
              eq_refl I eq_refl eq_refl eq_refl eq_refl) as (_ & _ & B & _).
  exact B.
Defined.

(** A process on both lists is counted once, behind either handle: the
    check by name comes after the exit that the check by path has
    confirmed. *)
Lemma listed_twice_counted_once :
  blocked_apps (snd (sweep_process abspath lower by_path_and_name
                       (vanishing 7 "/usr/bin/calc" "calc") initial)) = 1
  /\ sweep_process abspath lower by_path_and_name (steady 7 "/usr/bin/calc" "calc") initial
     = (Ok tt, {| trace := [Exe 7 (Returns "/usr/bin/calc"); Exe 7 (Returns "/usr/bin/calc");
                            Name 7 (Returns "calc"); Terminate 7 (Returns tt);
                            Wait 7 (Returns tt); Log INFO (Terminated 7 "calc");
                            Name 7 (Returns "calc"); Terminate 7 (Raises NoSuchProcess);
                            Log WARNING (FailedToTerminate 7 NoSuchProcess)];
                  attempts := 1; blocked_apps := 1; calls := 7 |}).
Proof. split; reflexivity. Qed.

(** C3 fails in the code: the executable path of the process may not be
    read, its name is on the name list.  The failure of [proc.exe()] ends
    the handling of the process, so that the name is never read and the
    process is not asked to terminate, and the log says "Failed to
    terminate".  An executable path that reads as empty, which line 115
    guards against, leaves the check by name in place. *)
Lemma unreadable_path_skips_name_check :
  name_match lower by_path_and_name "calc" = true
  /\ sweep_process abspath lower by_path_and_name (guarded 7 "calc") initial
     = (Ok tt, {| trace := [Exe 7 (Raises AccessDenied);
                            Log WARNING (FailedToTerminate 7 AccessDenied)];
                  attempts := 0; blocked_apps := 0; calls := 1 |}).
Proof. split; reflexivity. Qed.

Lemma pass_handles_each_process_alone_witness :
  let procs := [guarded 7 "calc"; steady 8 "" "calc"] in
  Forall cooperative procs
  /\ let r := for_each procs (sweep_process abspath lower by_path_and_name) initial in
     fst r = Ok tt
     /\ trace (snd r) = flat_map (handled_events abspath lower by_path_and_name) procs
     /\ In (Terminate 8 (Returns tt))
           (handled_events abspath lower by_path_and_name (steady 8 "" "calc")).
Proof.
  cbn zeta.
  assert (C : Forall cooperative [guarded 7 "calc"; steady 8 "" "calc"])
    by (constructor; [apply guarded_cooperative
                     | constructor; [apply steady_cooperative | constructor]]).
  split; [exact C | ].
  destruct (pass_handles_each_process_alone abspath lower by_path_and_name _ initial C)
    as (R & T & _ & E).
  split; [exact R | split; [exact T | ]].
  apply (E (steady 8 "" "calc") "calc"); cbn; auto.
Defined.

(** C4 as the spec states it fails: the pass runs half a minute past the end
    time, and the update carries minus thirty seconds; it is the GUI that
    shows such a time as 0m 0s. *)
Lemma overrun_emits_negative_time :
  Controller.time_label (-30) = (0, 0)
  /\ run_thread abspath lower 2 nobody_stops by_name
  = (Ok tt, {| trace := [Now 0; Log INFO (StartedBlocking 1); Now 20000000; Running true;
                         ProcessIter [7]; Name 7 (Returns "Calc"); Terminate 7 (Returns tt);
                         Wait 7 (Raises TimeoutExpired);
                         Log WARNING (FailedToTerminate 7 TimeoutExpired);
                         Now 90000000; UpdateStats (PyInt (-30)) 0 0; Sleep 1;
                         Now 120000000; Running true; Log INFO FinishedBlocking];
               attempts := 0; blocked_apps := 0; calls := 3 |}).
Proof. split; reflexivity. Qed.

(** From [2^34] seconds on the double of [total_seconds()] is too coarse
    for the microseconds: a span one microsecond short of the next second
    becomes that second. *)
Lemma float_gains_a_second :
  int_total_seconds (2 ^ 34 * us_per_second + 999999) = 2 ^ 34 + 1
  /\ Z.quot (2 ^ 34 * us_per_second + 999999) us_per_second = 2 ^ 34
  /\ int_total_seconds (2 ^ 34 * us_per_second - 1) = 2 ^ 34 - 1.
Proof. repeat split; vm_compute; reflexivity. Qed.

Lemma time_remaining_truncated_witness :
  let tr := trace (snd (run_thread abspath lower 2 nobody_stops by_name)) in
  nth_error tr 10 = Some (UpdateStats (PyInt (-30)) 0 0)
  /\ exists j, started_at nobody_stops by_name tr j
               /\ -30 = int_total_seconds (clock nobody_stops j
                                           + timedelta_minutes (duration_minutes by_name)
                                           - clock nobody_stops 9).
Proof.
  cbn zeta. split; [reflexivity | ].
  destruct (time_remaining_truncated abspath lower 2 nobody_stops by_name 10 (-30) 0 0 eq_refl)
    as [j (S & _ & _ & V & _)].
  exists j. split; [exact S | exact V].
Defined.

Lemma unlisted_never_terminated_witness :
  (forall pos proc, In proc (process_table bystander pos) -> pid proc = 9 ->
                    ~ listed abspath lower by_path_and_name proc)
  /\ ~ In (Terminate 9 (Returns tt))
          (trace (snd (run_thread abspath lower 3 bystander by_path_and_name))).
Proof.
  assert (U : forall pos proc, In proc (process_table bystander pos) -> pid proc = 9 ->
                               ~ listed abspath lower by_path_and_name proc).
  { intros pos proc [<- | [<- | []]] Hp; [ | discriminate Hp].
    intros [[i [s [E I]]] | [i [n [E I]]]]; inversion E; subst;
      destruct I as [I | []]; discriminate I. }
  split; [exact U | ].
  exact (unlisted_never_terminated abspath lower 3 bystander by_path_and_name 9 (Returns tt) U).
Defined.

(** C7 on the code: the start is scheduled, notifications are on, and
    [stop()] comes during the first sleep of the countdown.  The worker
    reads the flag as false and leaves the countdown; it then logs and
    notifies that blocking has started, and only the blocking loop, which
    reads the flag again, keeps it from enumerating processes. *)
Theorem stop_in_countdown_still_announces_start :
  run_thread abspath lower 3 stop_while_counting at_one_past_midnight
  = (Ok tt, {| trace := [Now 0; Now 0; Now 0; Now 0; Log INFO (Scheduled 60000000);
                         Notification (Scheduled 60000000); Running true;
                         UpdateStats (PyFloat 60000000) 0 0; Sleep 1; Running false;
                         Now 0; Log INFO (StartedBlocking 30);
                         Notification (StartedBlocking 30); Now 0; Running false;
                         Running false];
               attempts := 0; blocked_apps := 0; calls := 0 |}).
Proof. reflexivity. Qed.

(** C8 as the spec states it fails: after a start time that is no time of
    day the consumer receives what it receives after a run that completed,
    the one signal [finished], and its slot logs that the session was
    completed. *)
Lemma failure_looks_like_completion :
  let failed := run_thread abspath lower 3 suspended malformed_start in
  let completed := run_thread abspath lower 3 suspended by_name in
  strptime_HM "25:00" = None
  /\ fst completed = Ok tt
  /\ In (Log INFO FinishedBlocking) (trace (snd completed))
  /\ Controller.signals failed = Controller.signals completed
  /\ flat_map (Controller.react malformed_start) (Controller.signals failed)
     = [Log INFO SessionCompleted].
Proof.
  cbn zeta. split; [reflexivity | split; [reflexivity | split; [ | split; reflexivity]]].
  cbn. auto 10.
Qed.

Lemma malformed_start_fails_fast_witness :
  start_time malformed_start = Some "25:00"
  /\ truthy "25:00" = true
  /\ ascii_text "25:00"
  /\ strptime_HM "25:00" = None
  /\ run_thread abspath lower 3 suspended malformed_start
     = (Ok tt, {| trace := [Log ERROR IncorrectTimeFormat];
                  attempts := 0; blocked_apps := 0; calls := 0 |})
  /\ Controller.signals (run_thread abspath lower 3 suspended malformed_start)
     = [Controller.finished].
Proof.
  do 4 (split; [reflexivity | ]).
  exact (malformed_start_fails_fast abspath lower 3 suspended malformed_start "25:00"
           eq_refl eq_refl eq_refl eq_refl).
Defined.

(** C9 as the spec states it fails: the poll interval is five seconds and
    the clock moves ten seconds with every step of the worker; the countdown
    sleeps one second a turn and counts 30, 29, 28 seconds down, while by
    the clock the start time has passed before the second update. *)
Lemma countdown_ignores_poll_interval_and_clock :
  check_frequency every_five_seconds = 5
  /\ run_thread abspath lower 5 stop_in_third_turn every_five_seconds
     = (Ok tt, {| trace := [Now 0; Now 10000000; Now 20000000; Now 30000000;
                            Log INFO (Scheduled 60000000); Running true;
                            UpdateStats (PyFloat 30000000) 0 0; Sleep 1; Running true;
                            UpdateStats (PyFloat 29000000) 0 0; Sleep 1; Running true;
                            UpdateStats (PyFloat 28000000) 0 0; Sleep 1; Running false;
                            Now 150000000; Log INFO (StartedBlocking 30); Now 170000000;
                            Running false; Running false];
                  attempts := 0; blocked_apps := 0; calls := 0 |}).
Proof. split; reflexivity. Qed.



(** ** Further properties of the worker *)

Ltac subst_lets := repeat match goal with x := _ |- _ => subst x end.

Section WorkerFacts.

Variables abspath lower : string -> string.
Variable env : Env.
Variable self : BlockerThread.

(** *** Notifications *)

Lemma handled_silent proc :
  notify self = false ->
  existsb notifies (handled_events abspath lower self proc) = false.
Proof.
  intros N. unfold_sweep. rewrite ?N. sweep_cases. all: try reflexivity; congruence.
Qed.

Lemma pass_silent ps :
  notify self = false ->
  existsb notifies (pass_events abspath lower self ps) = false.
Proof.
  intros N. induction ps as [| p rest IH]; cbn; [reflexivity | ].
  rewrite existsb_app, (handled_silent p N).
  destruct (handled_result abspath lower self p); auto.
Qed.

Lemma reaches_silent ph tr a :
  reaches abspath lower env self ph tr a ->
  notify self = false ->
  existsb notifies tr = false.
Proof.
  intros R N. induction R; cbn zeta; subst_lets; unfold notified; rewrite ?N;
    rewrite ?existsb_app, ?IHR, ?(pass_silent _ N); reflexivity.
Qed.

(** *** The ways in which a run ends *)

Lemma sweep_marks evs :
  forallb sweep_event evs = true ->
  existsb logs_finished evs = false /\ existsb logs_bad_time evs = false.
Proof.
  induction evs as [| e rest IH]; cbn; [auto | ].
  intros H. apply andb_prop in H. destruct H as [He Hr].
  destruct (IH Hr) as [-> ->].
  destruct e as [ | | | | | | | [] [] | | | ]; try discriminate; auto.
Qed.

Lemma notified_marks m :
  m <> FinishedBlocking ->
  existsb logs_finished (notified self m) = false
  /\ existsb logs_bad_time (notified self m) = false
  /\ existsb reads_stop (notified self m) = false.
Proof. intros _. unfold notified. destruct (notify self); auto. Qed.

Lemma reaches_end_inv ph tr a :
  reaches abspath lower env self ph tr a -> end_inv ph tr.
Proof.
  intros R. pose proof (reaches_stop_inv abspath lower env self ph tr a R) as SI. revert SI.
  induction R as
    [ N | s N P | s hm N P R | s hm start N P R
    | w tr a H IH W F | w tr a H IH W F | w tr a H IH W
    | tr a H IH
    | e tr a H IH T F Hr Fq | e tr a H IH T F Hr Fq
    | e tr a x H IH T F Hr | e tr a H IH T | e tr a H IH T F
    | tr a H IH F | tr a H IH F ];
    cbn zeta; subst_lets; intros SI;
    try (specialize (IH (reaches_stop_inv abspath lower env self _ _ _ H)));
    unfold end_inv, ended_one_way in *; cbn zeta.
  - auto.
  - unfold notified. destruct (notify self); cbn; auto.
  - unfold notified. destruct (notify self); cbn; auto.
  - unfold notified. destruct (notify self); cbn; auto.
  - destruct IH as [A B]. rewrite !existsb_app, A, B. cbn. auto.
  - destruct IH as [A B]. rewrite !existsb_app, A, B. cbn. auto.
  - assumption.
  - destruct IH as [A B]. rewrite !existsb_app, A, B. unfold notified.
    destruct (notify self); cbn; auto.
  - destruct IH as [A0 B0].
    destruct (sweep_marks _ (pass_events_sweep abspath lower self
                               (process_table env (List.length tr + 2)))) as [A B].
    rewrite !existsb_app, A0, B0, A, B. cbn. auto.
  - exact I.
  - exact I.
  - destruct IH as [A B]. rewrite !existsb_app, A, B. cbn. auto.
  - destruct IH as [A B]. rewrite !existsb_app, A, B. cbn. auto.
  - destruct IH as [A B].
    destruct (reaches_stop_inv abspath lower env self _ _ _ H) as [_ St].
    assert (E : existsb reads_stop tr = false).
    { destruct (existsb reads_stop tr); [ | reflexivity].
      rewrite St in F by reflexivity. discriminate. }
    left. rewrite !existsb_app, A, B, E. unfold notified.
    destruct (notify self); cbn; auto.
  - destruct IH as [A B]. right. left. rewrite !existsb_app, A, B. cbn.
    rewrite orb_true_r. auto.
Qed.

(** *** What leaves [run] as an exception *)

Lemma pass_result_raise ps x :
  pass_result abspath lower self ps = Raise x -> soft_failure x = false.
Proof.
  induction ps as [| p rest IH]; cbn; [discriminate | ].
  destruct (handled_result_cases abspath lower self p) as [E | [y [E S]]]; rewrite E.
  - exact IH.
  - intros H. inversion H; subst. exact S.
Qed.

Lemma reaches_crash_hard ph tr a x :
  reaches abspath lower env self ph tr a -> ph = Crashed x -> soft_failure x = false.
Proof.
  intros R. destruct R; intros E; try discriminate E; inversion E; subst.
  - reflexivity.
  - eapply pass_result_raise. eassumption.
Qed.

(** *** The loops end *)

Lemma flag_false_from n pos :
  stop_at env = Some n -> (n <= pos)%nat -> flag env pos = false.
Proof. intros S L. unfold flag. rewrite S. apply Nat.ltb_ge. exact L. Qed.

Lemma flag_true_before n pos :
  stop_at env = Some n -> flag env pos = true -> (pos < n)%nat.
Proof. intros S F. unfold flag in F. rewrite S in F. apply Nat.ltb_lt. exact F. Qed.

Lemma countdown_grows fuel : forall w st,
  (List.length (trace st) <= List.length (trace (snd (countdown fuel env w st))))%nat.
Proof.
  induction fuel as [| fuel IH]; intros w st; cbn [countdown]; exec; [lia | ].
  destruct (0 <? w); exec; [ | lia].
  destruct (flag env (List.length (trace st))); exec.
  - unfold sleep. change (1 <? 0) with false. exec.
    match goal with |- context [countdown fuel env ?w' ?s] => specialize (IH w' s) end.
    cbn [trace] in IH. rewrite !length_app in IH. cbn [List.length] in IH. lia.
  - rewrite length_app. cbn. lia.
Qed.

Lemma countdown_ends_after_stop n fuel : forall w st,
  stop_at env = Some n ->
  (1 <= fuel)%nat ->
  (n < fuel + List.length (trace st))%nat ->
  fst (countdown fuel env w st) <> OutOfFuel.
Proof.
  induction fuel as [| fuel IH]; intros w st S F1 B; [lia | ].
  cbn [countdown]. exec. destruct (0 <? w); exec; [ | discriminate].
  destruct (flag env (List.length (trace st))) eqn:F; exec; [ | discriminate].
  apply (flag_true_before n) in F; [ | exact S].
  unfold sleep. change (1 <? 0) with false. exec.
  apply IH; [exact S | lia | ]. cbn [trace]. rewrite !length_app. cbn [List.length]. lia.
Qed.

Lemma blocking_loop_ends end_time n fuel : forall st,
  (forall pos, (n <= pos)%nat -> end_time <= clock env pos \/ flag env (pos + 1) = false) ->
  (1 <= fuel)%nat ->
  (n < fuel + List.length (trace st))%nat ->
  fst (blocking_loop abspath lower fuel env self end_time st) <> OutOfFuel.
Proof.
  induction fuel as [| fuel IH]; intros st P F1 B; [lia | ].
  cbn [blocking_loop]. exec.
  destruct (Z.ltb_spec (clock env (List.length (trace st))) end_time) as [T | T]; exec;
    [ | discriminate].
  destruct (flag env (List.length (trace st ++ [Now (clock env (List.length (trace st)))])))
    eqn:F; exec; [ | discriminate].
  rewrite length_snoc in F.
  assert (L : (List.length (trace st) < n)%nat).
  { destruct (Nat.lt_ge_cases (List.length (trace st)) n) as [L | L]; [exact L | ].
    destruct (P _ L) as [C | C]; [lia | congruence]. }
  match goal with |- context [sweep abspath lower env self ?s] =>
    pose proof (sweep_extends abspath lower env self s) as S;
    destruct (sweep abspath lower env self s) as [r st'] end.
  cbn in S. destruct S as (Hr & Ht & Ha & Hb).
  destruct r as [[] | x |]; exec.
  - unfold sleep. destruct (check_frequency self <? 0); exec; [discriminate | ].
    apply IH; [exact P | lia | ]. cbn [trace]. rewrite Ht, !length_app. cbn [List.length]. lia.
  - discriminate.
  - exfalso. apply (pass_result_fuel abspath lower self _ (eq_sym Hr)).
Qed.

Lemma enforce_ends_after_stop n fuel st :
  stop_at env = Some n ->
  (1 <= fuel)%nat ->
  (n < fuel + List.length (trace st))%nat ->
  fst (enforce abspath lower fuel env self st) <> OutOfFuel.
Proof.
  intros S F1 B.
  assert (P : forall pos, (n <= pos)%nat ->
                clock env (List.length (trace st)) + timedelta_minutes (duration_minutes self)
                <= clock env pos \/ flag env (pos + 1) = false).
  { intros pos L. right. apply (flag_false_from n); [exact S | lia]. }
  unfold enforce. exec. destruct (notify self) eqn:N; exec.
  all: match goal with |- context [blocking_loop _ _ ?f _ _ ?et ?s] =>
         pose proof (blocking_loop_ends et n f s P F1) as E;
         destruct (blocking_loop abspath lower f env self et s) as [[[] | x |] s'] end.
  all: cbn [fst snd trace] in *; exec; try discriminate.
  all: try (destruct (flag env (List.length (trace s'))); exec; discriminate).
  all: apply E; rewrite !length_app; cbn [List.length]; lia.
Qed.

End WorkerFacts.

(** *** The attempts and the log *)

Section Counting.

Variables abspath lower : string -> string.
Variable env : Env.
Variable self : BlockerThread.

Lemma terminations_app tr evs : terminations (tr ++ evs) = terminations tr + terminations evs.
Proof. unfold terminations. rewrite filter_app, length_app. lia. Qed.

Lemma handled_terminations proc :
  terminations (handled_events abspath lower self proc) = handled_count abspath lower self proc.
Proof. unfold_sweep. sweep_cases. all: reflexivity. Qed.

Lemma pass_terminations ps :
  terminations (pass_events abspath lower self ps) = pass_count abspath lower self ps.
Proof.
  induction ps as [| p rest IH]; cbn [pass_events pass_count]; [reflexivity | ].
  rewrite terminations_app, handled_terminations.
  destruct (handled_result abspath lower self p); [rewrite IH | | ]; reflexivity.
Qed.

Lemma terminations_notified m : terminations (notified self m) = 0.
Proof. unfold notified. destruct (notify self); reflexivity. Qed.

Lemma reaches_terminations ph tr a :
  reaches abspath lower env self ph tr a -> a = terminations tr.
Proof.
  induction 1; cbn zeta; subst_lets;
    rewrite ?terminations_app, ?pass_terminations, ?terminations_notified;
    try (cbn; lia).
  unfold notified. destruct (notify self); reflexivity.
Qed.

End Counting.

(** *** The refusal of the start time *)

Section Refusal.

Variables abspath lower : string -> string.
Variable env : Env.
Variable self : BlockerThread.

Lemma bad_time_app tr evs :
  existsb logs_bad_time (tr ++ evs) = existsb logs_bad_time tr || existsb logs_bad_time evs.
Proof. apply existsb_app. Qed.

Lemma bad_time_notified m : existsb logs_bad_time (notified self m) = false.
Proof. unfold notified. destruct (notify self); reflexivity. Qed.

Lemma bad_time_sweep evs :
  forallb sweep_event evs = true -> existsb logs_bad_time evs = false.
Proof. intros H. apply sweep_marks in H. tauto. Qed.

(** The refusal is logged for a string that is no time of day, or for a
    date that does not exist. *)
Lemma reaches_refused ph tr a :
  reaches abspath lower env self ph tr a ->
  existsb logs_bad_time tr = true ->
  exists s, scheduled self = Some s
            /\ (strptime_HM s = None
                \/ exists hm, strptime_HM s = Some hm
                              /\ replace_date hm (year (clock env 0)) (month (clock env 1))
                                   (day (clock env 2)) = None).
Proof.
  induction 1; cbn zeta; subst_lets;
    rewrite ?bad_time_app, ?bad_time_notified, ?(bad_time_sweep _ (pass_events_sweep _ _ _ _));
    cbn [existsb logs_bad_time orb]; rewrite ?orb_false_r;
    try discriminate; try assumption; eauto 8.
Qed.

Lemma same_day_date t u : same_day t u -> year u = year t /\ month u = month t /\ day u = day t.
Proof. unfold same_day, year, month, day. intros ->. auto. Qed.

End Refusal.

(** *** The passes and the end of the session *)

Section Passes.

Variables abspath lower : string -> string.
Variable env : Env.
Variable self : BlockerThread.

Lemma enumerates_sweep evs : forallb sweep_event evs = true -> existsb enumerates evs = false.
Proof.
  induction evs as [| e rest IH]; cbn; [reflexivity | ].
  intros H. apply andb_prop in H. destruct H as [He Hr]. rewrite (IH Hr).
  destruct e; try discriminate He; reflexivity.
Qed.

Lemma enumerates_notified m : existsb enumerates (notified self m) = false.
Proof. unfold notified. destruct (notify self); reflexivity. Qed.

Lemma pass_inv_app tr evs :
  pass_inv env self tr -> existsb enumerates evs = false -> pass_inv env self (tr ++ evs).
Proof.
  intros I N i pids Hi. apply nth_error_app_cases in Hi. destruct Hi as [Hi | [_ Hi]].
  - destruct (I i pids Hi) as [j (S1 & S2 & S3 & S4)].
    exists j. repeat split; try assumption.
    + apply nth_error_keep. apply S1.
    + apply nth_error_keep. apply S1.
    + apply nth_error_keep. assumption.
  - apply nth_error_In in Hi.
    assert (E : existsb enumerates evs = true)
      by (apply existsb_exists; exists (ProcessIter pids); auto).
    congruence.
Qed.

Lemma pass_inv_nil : pass_inv env self [].
Proof. intros [| i] pids Hi; discriminate Hi. Qed.

Lemma pass_inv_fresh evs : existsb enumerates evs = false -> pass_inv env self evs.
Proof. intros N. exact (pass_inv_app [] evs pass_inv_nil N). Qed.

Lemma pass_inv_tick e tr pids :
  pass_inv env self tr ->
  time_inv env self (Blocking e) tr ->
  clock env (List.length tr) < e ->
  pass_inv env self (tr ++ [Now (clock env (List.length tr)); Running true; ProcessIter pids]).
Proof.
  intros I [_ Bl] T i ids Hi. apply nth_error_app_cases in Hi. destruct Hi as [Hi | [L Hi]].
  - destruct (I i ids Hi) as [j (S1 & S2 & S3 & S4)].
    exists j. repeat split; try assumption.
    + apply nth_error_keep. apply S1.
    + apply nth_error_keep. apply S1.
    + apply nth_error_keep. assumption.
  - destruct (Bl e eq_refl) as [j [S1 S2]].
    destruct (i - List.length tr)%nat as [| [| [| k]]] eqn:K; cbn in Hi; try discriminate Hi.
    + replace (i - 2)%nat with (List.length tr) by lia.
      exists j. repeat split.
      * apply nth_error_keep. apply S1.
      * apply nth_error_keep. apply S1.
      * lia.
      * rewrite nth_error_app2, Nat.sub_diag by lia. reflexivity.
      * subst e. exact T.
    + destruct k; discriminate Hi.
Qed.

Ltac quiet_events :=
  cbn [existsb enumerates orb]; rewrite ?existsb_app, ?enumerates_notified;
  rewrite ?(enumerates_sweep _ (pass_events_sweep _ _ _ _)); reflexivity.

Lemma reaches_pass_inv ph tr a :
  reaches abspath lower env self ph tr a -> pass_inv env self tr.
Proof.
  induction 1 as
    [ N | s N P | s hm N P R | s hm start N P R
    | w tr a H IH W F | w tr a H IH W F | w tr a H IH W
    | tr a H IH
    | e tr a H IH T F Hr Fq | e tr a H IH T F Hr Fq
    | e tr a x H IH T F Hr | e tr a H IH T | e tr a H IH T F
    | tr a H IH F | tr a H IH F ];
    cbn zeta; subst_lets.
  - apply pass_inv_nil.
  - apply pass_inv_fresh. quiet_events.
  - apply pass_inv_fresh. quiet_events.
  - apply pass_inv_fresh. quiet_events.
  - apply pass_inv_app; [assumption | quiet_events].
  - apply pass_inv_app; [assumption | quiet_events].
  - assumption.
  - apply pass_inv_app; [assumption | quiet_events].
  - apply pass_inv_app; [ | quiet_events].
    rewrite (app_assoc tr [_; _; _]). apply pass_inv_app; [ | quiet_events].
    apply (pass_inv_tick e); [assumption | | assumption].
    exact (reaches_time_inv abspath lower env self _ _ _ H).
  - apply pass_inv_app; [ | quiet_events].
    rewrite (app_assoc tr [_; _; _]). apply pass_inv_app; [ | quiet_events].
    apply (pass_inv_tick e); [assumption | | assumption].
    exact (reaches_time_inv abspath lower env self _ _ _ H).
  - rewrite (app_assoc tr [_; _; _]). apply pass_inv_app; [ | quiet_events].
    apply (pass_inv_tick e); [assumption | | assumption].
    exact (reaches_time_inv abspath lower env self _ _ _ H).
  - apply pass_inv_app; [assumption | quiet_events].
  - apply pass_inv_app; [assumption | quiet_events].
  - apply pass_inv_app; [assumption | quiet_events].
  - apply pass_inv_app; [assumption | quiet_events].
Qed.

End Passes.

(** *** Processes on the list *)

Section Listed.

Variables abspath lower : string -> string.

Ltac hard_reply C :=
  match goal with
  | E : ?f ?p ?n = Raises ?x, S : soft_failure ?x = false |- _ =>
      let Q := fresh in
      destruct (C n) as (Q1 & Q2 & Q3 & Q4);
      first [ rewrite E in Q1; cbn in Q1; congruence
            | rewrite E in Q2; cbn in Q2; congruence
            | rewrite E in Q3; cbn in Q3; congruence
            | rewrite E in Q4; cbn in Q4; congruence ]
  end.

Ltac find_event :=
  first [ left; eexists; cbn; rewrite ?in_app_iff; cbn; tauto
        | right; eexists; cbn; rewrite ?in_app_iff; cbn; tauto ].

Lemma handled_name_listed self proc nm :
  cooperative proc ->
  (forall i, name proc i = Returns nm) ->
  In (lower nm) (process_names self) ->
  (exists r, In (Terminate (pid proc) r) (handled_events abspath lower self proc))
  \/ (exists x, In (Log WARNING (FailedToTerminate (pid proc) x))
                   (handled_events abspath lower self proc)).
Proof.
  intros C Hn I.
  assert (Ne : nonempty (process_names self) = true)
    by (destruct (process_names self); [destruct I | reflexivity]).
  apply mem_In in I.
  unfold_sweep. rewrite ?Ne, ?Hn. cbn -[Z.add]. rewrite ?I. sweep_cases.
  all: use_answers.
  all: try congruence.
  all: try hard_reply C.
  all: try find_event.
Qed.

Lemma handled_path_listed self proc path :
  cooperative proc ->
  (forall i, exe proc i = Returns path) ->
  truthy path = true ->
  In (abspath path) (app_paths self) ->
  (exists r, In (Terminate (pid proc) r) (handled_events abspath lower self proc))
  \/ (exists x, In (Log WARNING (FailedToTerminate (pid proc) x))
                   (handled_events abspath lower self proc)).
Proof.
  intros C He T I.
  assert (Ne : nonempty (app_paths self) = true)
    by (destruct (app_paths self); [destruct I | reflexivity]).
  apply mem_In in I.
  unfold_sweep. rewrite ?Ne, ?He. cbn -[Z.add]. rewrite ?T, ?He. cbn -[Z.add].
  rewrite ?I. sweep_cases.
  all: use_answers.
  all: try congruence.
  all: try hard_reply C.
  all: try find_event.
Qed.

End Listed.

(** ** The calendar and the scheduled start *)

Lemma range_all_spec k : forall a P,
  range_all k a P = true -> forall z, a <= z < a + 2 ^ Z.of_nat k -> P z = true.
Proof.
  induction k as [| k IH]; intros a P H z B.
  - cbn in *. replace z with a by lia. exact H.
  - cbn [range_all] in H. apply andb_prop in H. destruct H as [H1 H2].
    rewrite Nat2Z.inj_succ, Z.pow_succ_r in B by lia.
    destruct (Z_lt_le_dec z (a + 2 ^ Z.of_nat k)) as [L | L].
    + apply (IH a P H1). lia.
    + apply (IH _ P H2). lia.
Qed.

Lemma era_days_ok : range_all 18 0 (fun z => if z <? 146097 then era_day_ok z else true) = true.
Proof. vm_compute. reflexivity. Qed.

Import PyDatetime.

Lemma civil_from_days_shift n k :
  civil_from_days (n + 146097 * k)
  = let '(y, m, d) := civil_from_days n in (y + 400 * k, m, d).
Proof.
  unfold civil_from_days. cbv zeta.
  replace (n + 146097 * k + 719468) with (n + 719468 + k * 146097) by ring.
  rewrite Z.div_add by lia.
  replace (n + 719468 + k * 146097 - ((n + 719468) / 146097 + k) * 146097)
    with (n + 719468 - (n + 719468) / 146097 * 146097) by ring.
  set (doe := n + 719468 - (n + 719468) / 146097 * 146097).
  set (yoe := (doe - doe / 1460 + doe / 36524 - doe / 146096) / 365).
  set (doy := doe - (365 * yoe + yoe / 4 - yoe / 100)).
  set (mp := (5 * doy + 2) / 153).
  destruct ((if mp <? 10 then mp + 3 else mp - 9) <=? 2); f_equal; f_equal; ring.
Qed.

Lemma days_from_civil_shift y m d k :
  days_from_civil (y + 400 * k) m d = days_from_civil y m d + 146097 * k.
Proof.
  unfold days_from_civil. cbv zeta.
  destruct (m <=? 2).
  - replace (y + 400 * k - 1) with (y - 1 + k * 400) by ring.
    rewrite Z.div_add by lia.
    replace (y - 1 + k * 400 - ((y - 1) / 400 + k) * 400) with (y - 1 - (y - 1) / 400 * 400)
      by ring.
    ring.
  - replace (y + 400 * k) with (y + k * 400) by ring.
    rewrite Z.div_add by lia.
    replace (y + k * 400 - (y / 400 + k) * 400) with (y - y / 400 * 400) by ring.
    ring.
Qed.

Lemma days_in_month_shift y m k : days_in_month (y + 400 * k) m = days_in_month y m.
Proof.
  unfold days_in_month, is_leap.
  replace ((y + 400 * k) mod 4) with (y mod 4)
    by (replace (400 * k) with (100 * k * 4) by ring; rewrite Z_mod_plus_full; reflexivity).
  replace ((y + 400 * k) mod 100) with (y mod 100)
    by (replace (400 * k) with (4 * k * 100) by ring; rewrite Z_mod_plus_full; reflexivity).
  replace ((y + 400 * k) mod 400) with (y mod 400)
    by (replace (400 * k) with (k * 400) by ring; rewrite Z_mod_plus_full; reflexivity).
  reflexivity.
Qed.

(** Every day number has a civil date that exists and that leads back to
    the day number. *)
Lemma civil_round_trip n :
  let '(y, m, d) := civil_from_days n in
  days_from_civil y m d = n /\ 1 <= m <= 12 /\ 1 <= d <= days_in_month y m.
Proof.
  pose proof (Z.div_mod (n + 719468) 146097 ltac:(lia)) as E.
  pose proof (Z.mod_pos_bound (n + 719468) 146097 ltac:(lia)) as B.
  set (era := (n + 719468) / 146097) in *. set (doe := (n + 719468) mod 146097) in *.
  replace n with (doe - 719468 + 146097 * era) by lia.
  rewrite civil_from_days_shift.
  pose proof (range_all_spec 18 0 _ era_days_ok doe ltac:(cbn; lia)) as C.
  cbv beta in C. destruct (Z.ltb_spec doe 146097) as [_ | ?]; [ | lia].
  unfold era_day_ok in C. cbv zeta in C.
  destruct (civil_from_days (doe - 719468)) as [[y m] d].
  repeat (apply andb_prop in C; destruct C as [C ?]).
  rewrite days_from_civil_shift, days_in_month_shift. lia.
Qed.

(** [replace] with the date of [t] puts the time of day on the day of
    [t]. *)
Lemma replace_date_today hm t :
  replace_date hm (year t) (month t) (day t)
  = Some (t / us_per_day * us_per_day + (fst hm * 3600 + snd hm * 60) * us_per_second).
Proof.
  unfold replace_date, year, month, day.
  pose proof (civil_round_trip (t / us_per_day)) as R.
  destruct (civil_from_days (t / us_per_day)) as [[y m] d]. cbn [fst snd].
  destruct R as (E & _ & D).
  replace ((1 <=? d) && (d <=? days_in_month y m)) with true
    by (symmetry; apply andb_true_intro; split; apply Z.leb_le; lia).
  rewrite E. reflexivity.
Qed.

Lemma digit_range c v : digit c = Some v -> 0 <= v <= 9.
Proof.
  unfold digit. cbv zeta. set (n := Z.of_nat (nat_of_ascii c)).
  destruct (Z.leb_spec 48 n), (Z.leb_spec n 57); cbn [andb]; try discriminate.
  intros E. inversion E. lia.
Qed.

Lemma number_range cs bound v : 9 <= bound -> number cs bound = Some v -> 0 <= v <= bound.
Proof.
  intros B. unfold number. destruct cs as [| a [| b [| ? ?]]]; try discriminate.
  - intros E. apply digit_range in E. lia.
  - destruct (digit a) as [x | ] eqn:Da; [ | discriminate].
    destruct (digit b) as [y | ] eqn:Db; [ | discriminate].
    apply digit_range in Da. apply digit_range in Db.
    destruct (Z.leb_spec (10 * x + y) bound); [ | discriminate].
    intros E. assert (10 * x + y = v) by congruence. lia.
Qed.

Lemma strptime_HM_range s h m :
  strptime_HM s = Some (h, m) -> 0 <= h <= 23 /\ 0 <= m <= 59.
Proof.
  unfold strptime_HM. destruct (split_colon _) as [[hs ms] | ]; [ | discriminate].
  destruct (number hs 23) as [hh | ] eqn:Eh; [ | discriminate].
  destruct (number ms 59) as [mm | ] eqn:Em; [ | discriminate].
  intros E. inversion E; subst.
  apply number_range in Eh; [ | lia]. apply number_range in Em; [ | lia]. auto.
Qed.

Section Scheduling.

Variables abspath lower : string -> string.
Variable env : Env.
Variable self : BlockerThread.

Lemma reaches_scheduled_log ph tr a s hm start :
  reaches abspath lower env self ph tr a ->
  scheduled self = Some s ->
  strptime_HM s = Some hm ->
  replace_date hm (year (clock env 0)) (month (clock env 1)) (day (clock env 2)) = Some start ->
  nth_error tr 4
  = Some (Log INFO (Scheduled (if start <? clock env 3
                               then start + timedelta_days 1 else start))).
Proof.
  intros R S P D.
  induction R; cbn zeta; subst_lets; try congruence.
  all: try (repeat apply nth_error_keep; assumption).
  assert (s0 = s) by congruence. subst s0.
  assert (hm0 = hm) by congruence. subst hm0.
  assert (start0 = start) by congruence. subst start0.
  reflexivity.
Qed.

End Scheduling.

(** ** The window *)

Import Gui.

(** *** The names typed into the window *)

Lemma rstrip_cons c r :
  rstrip (String c r) =
  match rstrip r with
  | EmptyString => if is_space c then EmptyString else String c EmptyString
  | kept => String c kept
  end.
Proof. reflexivity. Qed.

Lemma rstrip_idem s : rstrip (rstrip s) = rstrip s.
Proof.
  induction s as [| c r IH]; [reflexivity | ].
  rewrite rstrip_cons. destruct (rstrip r) as [| c' k] eqn:K.
  - destruct (is_space c) eqn:Sp; [reflexivity | ]. cbn [rstrip]. rewrite Sp. reflexivity.
  - rewrite rstrip_cons, IH. reflexivity.
Qed.

Lemma rstrip_head c r :
  is_space c = false -> exists k, rstrip (String c r) = String c k.
Proof.
  intros Sp. cbn [rstrip]. destruct (rstrip r); [rewrite Sp | ]; eauto.
Qed.

Lemma lstrip_head s :
  lstrip s = EmptyString \/ exists c r, lstrip s = String c r /\ is_space c = false.
Proof.
  induction s as [| c r IH]; cbn [lstrip]; [auto | ].
  destruct (is_space c) eqn:Sp; [exact IH | right; eauto].
Qed.

Lemma strip_idem s : strip (strip s) = strip s.
Proof.
  unfold strip. destruct (lstrip_head s) as [E | [c [r [E Sp]]]]; rewrite E.
  - reflexivity.
  - destruct (rstrip_head c r Sp) as [k K]. rewrite K. cbn [lstrip]. rewrite Sp, <- K.
    apply rstrip_idem.
Qed.

Lemma lstrip_chars s c : In c (list_ascii_of_string (lstrip s)) -> In c (list_ascii_of_string s).
Proof.
  induction s as [| a r IH]; cbn [lstrip]; [auto | ].
  destruct (is_space a); [ | auto]. intros H. right. auto.
Qed.

Lemma rstrip_chars s c : In c (list_ascii_of_string (rstrip s)) -> In c (list_ascii_of_string s).
Proof.
  induction s as [| a r IH]; cbn [rstrip]; [auto | ].
  destruct (rstrip r) as [| c' k].
  - destruct (is_space a); cbn; [contradiction | ]. intros [H | []]. auto.
  - cbn [list_ascii_of_string In] in *. intros [H | H]; auto.
Qed.

Lemma strip_chars s c : In c (list_ascii_of_string (strip s)) -> In c (list_ascii_of_string s).
Proof. intros H. apply lstrip_chars, rstrip_chars. exact H. Qed.

Lemma split_not_nil sep s : split sep s <> [].
Proof.
  destruct s as [| c r]; cbn [split]; [discriminate | ].
  destruct (Ascii.eqb c sep); [discriminate | ]. destruct (split sep r); discriminate.
Qed.

Lemma split_pieces sep s piece : In piece (split sep s) -> has_no sep piece.
Proof.
  unfold has_no. revert piece. induction s as [| c r IH]; cbn [split]; intros piece.
  - intros [<- | []]. cbn. auto.
  - destruct (Ascii.eqb_spec c sep) as [-> | N].
    + intros [<- | H]; [cbn; auto | auto].
    + destruct (split sep r) as [| p ps] eqn:E; [destruct (split_not_nil sep r E) | ].
      intros [<- | H].
      * cbn. intros [H | H]; [congruence | ]. apply (IH p); [left; reflexivity | exact H].
      * apply IH. right. exact H.
Qed.

(** *** Joining and parsing *)

Lemma split_whole sep a : has_no sep a -> split sep a = [a].
Proof.
  unfold has_no. induction a as [| c r IH]; cbn [split list_ascii_of_string In]; [reflexivity | ].
  intros N. destruct (Ascii.eqb_spec c sep) as [E | _]; [destruct N; auto | ].
  rewrite IH by auto. reflexivity.
Qed.

Lemma split_app sep a b :
  has_no sep a -> split sep (a ++ String sep b) = a :: split sep b.
Proof.
  unfold has_no. induction a as [| c r IH]; cbn [split list_ascii_of_string In append].
  - intros _. rewrite Ascii.eqb_refl. reflexivity.
  - intros N. destruct (Ascii.eqb_spec c sep) as [E | _]; [destruct N; auto | ].
    rewrite IH by auto. reflexivity.
Qed.

Lemma split_joined n names :
  Forall (has_no ";"%char) (n :: names) ->
  split ";"%char (String.concat ";" (n :: names)) = n :: names.
Proof.
  revert n. induction names as [| n' rest IH]; intros n F.
  - cbn [String.concat]. apply split_whole. inversion F; assumption.
  - inversion F as [| ? ? Hn Hr]; subst.
    change (String.concat ";" (n :: n' :: rest))
      with (n ++ String ";"%char (String.concat ";" (n' :: rest)))%string.
    rewrite split_app by exact Hn. rewrite IH by exact Hr. reflexivity.
Qed.

Lemma keep_clean names :
  Forall clean_name names ->
  flat_map (fun piece => if truthy (strip piece) then [strip piece] else []) names = names.
Proof.
  induction 1 as [| n rest (T & S & _) _ IH]; cbn [flat_map]; [reflexivity | ].
  rewrite S, T, IH. reflexivity.
Qed.

(** *** The time edit *)

Lemma time_edit_checked :
  range_all 5 0 (fun h =>
    if h <? 24
    then range_all 6 0 (fun m =>
           if m <? 60
           then match strptime_HM (toString_HHmm h m) with
                | Some (a, b) => (a =? h) && (b =? m)
                | None => false
                end
           else true)
    else true) = true.
Proof. vm_compute. reflexivity. Qed.

Lemma strptime_toString h m :
  0 <= h < 24 -> 0 <= m < 60 -> strptime_HM (toString_HHmm h m) = Some (h, m).
Proof.
  intros Hh Hm.
  pose proof (range_all_spec _ _ _ time_edit_checked h ltac:(cbn; lia)) as A.
  cbv beta in A. destruct (Z.ltb_spec h 24); [ | lia].
  pose proof (range_all_spec _ _ _ A m ltac:(cbn; lia)) as B.
  cbv beta in B. destruct (Z.ltb_spec m 60); [ | lia].
  destruct (strptime_HM (toString_HHmm h m)) as [[a b] | ]; [ | discriminate].
  apply andb_prop in B. destruct B as [Ea Eb].
  apply Z.eqb_eq in Ea. apply Z.eqb_eq in Eb. subst. reflexivity.
Qed.

Lemma toString_truthy h m : truthy (toString_HHmm h m) = true.
Proof. reflexivity. Qed.

(** *** Starting a session *)

Section Starting.

Variables abspath lower : string -> string.

Lemma start_blocking_started is_admin form w w' th :
  start_blocking abspath lower is_admin form w = (w', [StartThread th]) ->
  th = init abspath lower (Some (items form)) (Some (parse_names (names_text form)))
         (duration_value form)
         (if start_checked form
          then Some (toString_HHmm (start_hour form) (start_minute form)) else None)
         (notify_checked form) (frequency_value form)
  /\ w' = {| enabled := blocking; blocker_thread := Some th |}
  /\ nonempty (items form) || nonempty (parse_names (names_text form)) = true
  /\ admin_checked form && negb is_admin = false.
Proof.
  unfold start_blocking. cbv zeta.
  destruct (nonempty (items form)), (nonempty (parse_names (names_text form)));
    cbn [negb andb orb]; try (intros E; discriminate E).
  all: destruct (admin_checked form && negb is_admin); intros E; inversion E; auto.
Qed.

End Starting.

(** ** Further properties of the worker *)

Section RunFacts.

Variables abspath lower : string -> string.
Variable env : Env.
Variable self : BlockerThread.

(** X1.  With notifications switched off, a run sends none: whatever the
    clock, the processes and the moment of a stop, no [Notification] is in
    the trace of [run]. *)
Theorem silent_when_notifications_off fuel :
  notify self = false ->
  existsb notifies (trace (snd (run_thread abspath lower fuel env self))) = false.
Proof.
  intros N. destruct (run_reaches abspath lower env self fuel) as [ph [R _]].
  exact (reaches_silent abspath lower env self _ _ _ R N).
Qed.

(** X2.  A run that returns has ended in exactly one of three ways: it
    logged the completion, or it read the flag as false, or it logged that
    the start time is refused. *)
Theorem returned_run_ended_one_way fuel :
  fst (run_thread abspath lower fuel env self) = Ok tt ->
  ended_one_way (trace (snd (run_thread abspath lower fuel env self))).
Proof.
  intros E. destruct (run_reaches abspath lower env self fuel) as [ph [R S]].
  cbv zeta in S. rewrite E in S. destruct ph; try contradiction.
  exact (reaches_end_inv abspath lower env self _ _ _ R).
Qed.

(** X3.  An exception that leaves [run] is none of the three that the
    sweep catches ([NoSuchProcess], [AccessDenied], [TimeoutExpired]). *)
Theorem only_hard_failures_leave_run fuel x :
  fst (run_thread abspath lower fuel env self) = Raise x ->
  soft_failure x = false.
Proof.
  intros E. destruct (run_reaches abspath lower env self fuel) as [ph [R S]].
  cbv zeta in S. rewrite E in S. destruct ph; try contradiction. cbn in S. subst.
  exact (reaches_crash_hard abspath lower env self _ _ _ _ R eq_refl).
Qed.

(** X5.  When [run] has returned or raised, [self.attempts] is the number
    of "Terminated process" entries that the run has logged; and so it is
    where the fuel cuts a run off, which is at the head of a loop. *)
Theorem attempts_count_terminated_logs fuel :
  attempts (snd (run_thread abspath lower fuel env self))
  = terminations (trace (snd (run_thread abspath lower fuel env self))).
Proof.
  destruct (run_reaches abspath lower env self fuel) as [ph [R _]].
  exact (reaches_terminations abspath lower env self _ _ _ R).
Qed.

(** X6.  A sweep pass counts no process more than twice: the number of
    blocked applications that a pass leaves in [blocked_apps] lies between
    0 and twice the length of the process table. *)
Theorem blocked_at_most_two_per_process st :
  let ps := process_table env (List.length (trace st)) in
  0 <= blocked_apps (snd (sweep abspath lower env self st)) <= 2 * Z.of_nat (List.length ps).
Proof.
  cbv zeta. destruct (sweep_extends abspath lower env self st) as (_ & _ & _ & ->).
  induction (process_table env (List.length (trace st))) as [| p rest IH].
  - cbn. lia.
  - cbn [pass_count List.length]. pose proof (handled_count_range abspath lower self p).
    destruct (handled_result abspath lower self p); lia.
Qed.

(** X7.  The refusal of the start time is logged only for a thread with a
    start time, and then only when the string is no time of day or the
    three readings of the clock that make up the date did not fall on one
    day. *)
Theorem refusal_has_a_cause fuel :
  existsb logs_bad_time (trace (snd (run_thread abspath lower fuel env self))) = true ->
  exists s, scheduled self = Some s
            /\ (strptime_HM s = None
                \/ ~ (same_day (clock env 0) (clock env 1)
                      /\ same_day (clock env 0) (clock env 2))).
Proof.
  intros B. destruct (run_reaches abspath lower env self fuel) as [ph [R _]].
  destruct (reaches_refused abspath lower env self _ _ _ R B) as [s [S [P | [hm [P D]]]]];
    exists s; (split; [exact S | ]); [left; exact P | right].
  intros [D1 D2].
  destruct (same_day_date _ _ D1) as (_ & M & _).
  destruct (same_day_date _ _ D2) as (_ & _ & Dy).
  rewrite M, Dy, replace_date_today in D. discriminate D.
Qed.

(** X8.  When the start time parses as [h:m] and the four readings of the
    clock fall on one day, the start that is logged is the next moment at
    which the clock shows [h:m:00]: it is not before the last reading, less
    than a day after it, and [h] hours and [m] minutes into its day. *)
Theorem scheduled_start_is_next_occurrence fuel s h m :
  scheduled self = Some s ->
  strptime_HM s = Some (h, m) ->
  same_day (clock env 0) (clock env 1) ->
  same_day (clock env 0) (clock env 2) ->
  same_day (clock env 0) (clock env 3) ->
  exists start,
    nth_error (trace (snd (run_thread abspath lower fuel env self))) 4
    = Some (Log INFO (Scheduled start))
    /\ clock env 3 <= start < clock env 3 + timedelta_days 1
    /\ start mod us_per_day = (h * 3600 + m * 60) * us_per_second.
Proof.
  intros S P D1 D2 D3.
  destruct (run_reaches abspath lower env self fuel) as [ph [R _]]. cbv zeta in R.
  destruct (same_day_date _ _ D1) as (_ & M & _).
  destruct (same_day_date _ _ D2) as (_ & _ & Dy).
  pose proof (replace_date_today (h, m) (clock env 0)) as T.
  rewrite <- M, <- Dy in T.
  pose proof (reaches_scheduled_log abspath lower env self _ _ _ _ _ _ R S P T) as L.
  cbn [fst snd] in L.
  destruct (strptime_HM_range _ _ _ P) as [Hh Hm].
  unfold same_day in D3. unfold timedelta_days, us_per_day, us_per_second in *.
  set (d := clock env 0 / (86400 * 1000000)) in *.
  pose proof (Z.div_mod (clock env 3) (86400 * 1000000) ltac:(lia)) as E.
  pose proof (Z.mod_pos_bound (clock env 3) (86400 * 1000000) ltac:(lia)) as B.
  rewrite <- D3 in E.
  eexists. split; [exact L | ].
  destruct (Z.ltb_spec (d * (86400 * 1000000) + (h * 3600 + m * 60) * 1000000) (clock env 3)).
  - split; [lia | ].
    replace (d * (86400 * 1000000) + (h * 3600 + m * 60) * 1000000 + 1 * (86400 * 1000000))
      with ((h * 3600 + m * 60) * 1000000 + (d + 1) * (86400 * 1000000)) by ring.
    rewrite Z_mod_plus_full. apply Z.mod_small. lia.
  - split; [lia | ].
    rewrite Z.add_comm, Z_mod_plus_full. apply Z.mod_small. lia.
Qed.

End RunFacts.

Section PassFacts.

Variables abspath lower : string -> string.
Variable env : Env.
Variable self : BlockerThread.

(** X9.  Every pass begins in time: before each enumeration of the
    processes the worker has read the clock, two events earlier, and the
    clock showed a time before the end of the session, which is the clock
    read at the entry of the blocking part plus the duration. *)
Theorem every_pass_begins_in_time fuel i pids :
  let tr := trace (snd (run_thread abspath lower fuel env self)) in
  nth_error tr i = Some (ProcessIter pids) ->
  exists j, started_at env self tr j
            /\ (2 <= i)%nat
            /\ nth_error tr (i - 2) = Some (Now (clock env (i - 2)))
            /\ clock env (i - 2) < clock env j + timedelta_minutes (duration_minutes self).
Proof.
  cbv zeta. destruct (run_reaches abspath lower env self fuel) as [ph [R _]].
  exact (reaches_pass_inv abspath lower env self _ _ _ R i pids).
Qed.

(** X10.  A pass skips no listed process in silence: over a table of
    processes that raise nothing but what the sweep catches, a process
    whose path or whose name is on the list, whenever it is read, is asked
    to terminate or is the subject of a warning in the log. *)
Theorem listed_process_is_never_skipped ps proc :
  Forall cooperative ps ->
  In proc ps ->
  (exists path, (forall i, exe proc i = Returns path)
                /\ truthy path = true /\ In (abspath path) (app_paths self))
  \/ (exists nm, (forall i, name proc i = Returns nm)
                  /\ In (lower nm) (process_names self)) ->
  (exists r, In (Terminate (pid proc) r) (pass_events abspath lower self ps))
  \/ (exists x, In (Log WARNING (FailedToTerminate (pid proc) x))
                   (pass_events abspath lower self ps)).
Proof.
  intros C I L.
  destruct (pass_cooperative abspath lower self ps C) as (_ & -> & _).
  assert (Cp : cooperative proc) by (rewrite Forall_forall in C; exact (C proc I)).
  assert (H : (exists r, In (Terminate (pid proc) r) (handled_events abspath lower self proc))
              \/ (exists x, In (Log WARNING (FailedToTerminate (pid proc) x))
                               (handled_events abspath lower self proc))).
  { destruct L as [[path (He & T & Ip)] | [nm (Hn & In_)]].
    - exact (handled_path_listed abspath lower self proc path Cp He T Ip).
    - exact (handled_name_listed abspath lower self proc nm Cp Hn In_). }
  destruct H as [[r H] | [x H]]; [left; exists r | right; exists x];
    apply in_flat_map; exists proc; auto.
Qed.

End PassFacts.

Section LoopFacts.

Variables abspath lower : string -> string.
Variable env : Env.
Variable self : BlockerThread.

(** X11.  A stop ends the run: once [stop()] has cleared the flag, at the
    position [n] of the trace, [run] returns or raises within [n + 1] turns
    of its loops, whatever the clock shows and the processes do. *)
Theorem run_ends_after_stop n fuel :
  stop_at env = Some n ->
  (n < fuel)%nat ->
  fst (run_thread abspath lower fuel env self) <> OutOfFuel.
Proof.
  intros S B. unfold run_thread, run.
  assert (Skip : fst (enforce abspath lower fuel env self initial) <> OutOfFuel).
  { apply (enforce_ends_after_stop abspath lower env self n); [exact S | lia | cbn; lia]. }
  destruct (start_time self) as [s | ]; [ | unfold bind at 1; exec; exact Skip].
  destruct (truthy s); [ | unfold bind at 1; exec; exact Skip].
  clear Skip. unfold schedule. exec.
  destruct (strptime_HM s) as [hm | ]; exec;
    [ | destruct (notify self); exec; discriminate].
  destruct (replace_date hm _ _ _) as [start | ]; exec;
    [ | destruct (notify self); exec; discriminate].
  destruct (notify self) eqn:N; exec.
  all: match goal with |- context [countdown ?f ?e ?w ?st] =>
         pose proof (countdown_ends_after_stop env n f w st S) as E;
         pose proof (countdown_grows env f w st) as G;
         destruct (countdown f e w st) as [[[] | x |] st'] end.
  all: cbn [fst snd trace] in *; exec; try discriminate.
  all: try (apply (enforce_ends_after_stop abspath lower env self n); [exact S | lia | cbn [List.length] in G; lia]).
  all: try (destruct (is_ValueError x); exec; try discriminate;
            destruct (notify self); exec; discriminate).
  all: apply E; [lia | cbn [List.length]; lia].
Qed.

(** X12.  The countdown needs no more turns than the wait has seconds:
    with a wait of at most [fuel] seconds, [fuel] turns and the last test
    of the loop condition end it, stop or no stop. *)
Theorem countdown_ends_in_time fuel : forall w st,
  w <= Z.of_nat fuel * us_per_second ->
  fst (countdown (S fuel) env w st) = Ok tt.
Proof.
  unfold us_per_second.
  induction fuel as [| fuel IH]; intros w st B; cbn [countdown]; exec.
  - destruct (Z.ltb_spec 0 w); [lia | reflexivity].
  - destruct (Z.ltb_spec 0 w); exec; [ | reflexivity].
    destruct (flag env (List.length (trace st))); exec; [ | reflexivity].
    unfold sleep. change (1 <? 0) with false. exec.
    apply IH. unfold us_per_second. lia.
Qed.

(** X13.  The blocking loop ends when the time is up: if from the position
    [n] of the trace on the clock shows [end_time] or later, the loop is
    over, with a result or an exception, by the time the trace is that
    long; more than [n] turns are never needed. *)
Theorem blocking_ends_at_end_time end_time n fuel st :
  (forall pos, (n <= pos)%nat -> end_time <= clock env pos) ->
  (n < fuel)%nat ->
  fst (blocking_loop abspath lower fuel env self end_time st) <> OutOfFuel.
Proof.
  intros P B. apply (blocking_loop_ends abspath lower env self end_time n); [ | lia | lia].
  intros pos L. left. exact (P pos L).
Qed.

(** X14.  A session that runs to its end with notifications on announces
    "Finished blocking applications." twice: the worker sends it before
    [run] returns, and the slot of [finished] sends it again. *)
Theorem completion_is_notified_twice fuel w :
  notify self = true ->
  fst (run_thread abspath lower fuel env self) = Ok tt ->
  existsb logs_finished (trace (snd (run_thread abspath lower fuel env self))) = true ->
  blocker_thread w = Some self ->
  In (Notification FinishedBlocking) (trace (snd (run_thread abspath lower fuel env self)))
  /\ In NotifyFinished (snd (Gui.blocking_finished w)).
Proof.
  intros N E L W. split.
  - destruct (run_reaches abspath lower env self fuel) as [ph [R S]].
    cbv zeta in S, R. rewrite E in S. destruct ph; try contradiction. clear S E.
    remember Returned as ph eqn:P. revert L.
    destruct R; try discriminate P; cbn zeta; subst_lets; intros L.
    + unfold notified in L. rewrite N in L. discriminate L.
    + unfold notified in L. rewrite N in L. discriminate L.
    + unfold notified. rewrite N. rewrite in_app_iff. right. cbn. auto.
    + pose proof (reaches_end_inv abspath lower env self _ _ _ R) as I. cbn in I.
      rewrite existsb_app in L. destruct I as [I _]. rewrite I in L. discriminate L.
  - unfold Gui.blocking_finished. rewrite W, N. cbn. auto.
Qed.

End LoopFacts.

(** ** Properties of the window *)

(** X15.  Every process name that [start_blocking] reads from the text
    field is clean: not empty, without white space at either end, without a
    semicolon. *)
Theorem parsed_names_are_clean text n : In n (parse_names text) -> clean_name n.
Proof.
  unfold parse_names. rewrite in_flat_map. intros [piece [Hp Hn]].
  destruct (truthy (strip piece)) eqn:T; [ | contradiction].
  destruct Hn as [<- | []]. repeat split.
  - exact T.
  - apply strip_idem.
  - intros H. apply strip_chars in H. exact (split_pieces _ _ _ Hp H).
Qed.

(** X16.  Clean names of ASCII characters that are joined with semicolons
    are read back unchanged, in their order and with their repetitions. *)
Theorem joined_names_parse_back names :
  Forall clean_name names ->
  Forall ascii_text names ->
  parse_names (String.concat ";" names) = names.
Proof.
  intros C _. unfold parse_names. destruct names as [| n rest]; [reflexivity | ].
  rewrite split_joined; [apply keep_clean; exact C | ].
  apply (Forall_impl _ (fun a (H : clean_name a) => proj2 (proj2 H)) C).
Qed.

(** X17.  The text that the time edit hands over, [HH:mm], is a time that
    the worker's [strptime] accepts, and it reads the same hour and
    minute. *)
Theorem time_edit_text_parses_back h m :
  0 <= h < 24 -> 0 <= m < 60 -> strptime_HM (toString_HHmm h m) = Some (h, m).
Proof. exact (strptime_toString h m). Qed.

(** X18.  [add_application] keeps what the list holds, in place, appends
    the chosen files that are new, and never produces a duplicate. *)
Theorem added_paths_stay_distinct file_paths : forall app_paths_list,
  NoDup app_paths_list ->
  NoDup (add_application app_paths_list file_paths)
  /\ (forall p, In p (add_application app_paths_list file_paths)
                <-> In p app_paths_list \/ In p file_paths)
  /\ exists added, add_application app_paths_list file_paths = app_paths_list ++ added.
Proof.
  induction file_paths as [| path rest IH]; intros l N; cbn [add_application].
  - split; [exact N | split; [ | exists []; symmetry; apply app_nil_r]].
    intros p. cbn. tauto.
  - destruct (mem path l) eqn:M.
    + apply mem_In in M. destruct (IH l N) as (N' & I & S).
      split; [exact N' | split; [ | exact S]].
      intros p. rewrite I. cbn. split; [tauto | ]. intros [H | [<- | H]]; auto.
    + assert (F : ~ In path l) by (rewrite <- mem_In; congruence).
      assert (N1 : NoDup (l ++ [path])).
      { apply NoDup_app; [exact N | repeat constructor; intros [] | ].
        intros x Hx [<- | []]. exact (F Hx). }
      destruct (IH _ N1) as (N' & I & [added S]).
      split; [exact N' | split].
      * intros p. rewrite I, in_app_iff. cbn. tauto.
      * exists (path :: added). rewrite S, <- app_assoc. reflexivity.
Qed.

(** X19.  The time label shows the remaining time clamped at zero: the
    minutes and seconds add up to [max(0, time_remaining)], with the
    seconds between 0 and 59. *)
Theorem time_label_shows_clamped_time t :
  let '(mins, secs) := Controller.time_label t in
  60 * mins + secs = Z.max 0 t /\ 0 <= secs < 60 /\ 0 <= mins.
Proof.
  unfold Controller.time_label. destruct (Z.ltb_spec 0 t) as [L | L].
  - pose proof (Z.div_mod t 60 ltac:(lia)). pose proof (Z.mod_pos_bound t 60 ltac:(lia)).
    assert (0 <= t / 60) by (apply Z.div_pos; lia). lia.
  - lia.
Qed.

Section WindowFacts.

Variables abspath lower : string -> string.

(** X20.  A thread that the window starts has something to block, the
    poll interval and the duration of the spin boxes, process names that
    are clean names in lower case, and, if it has a start time, one that
    [strptime] reads as the hour and minute of the time edit; the window
    keeps the thread and disables its inputs. *)
Theorem window_thread_is_well_formed is_admin form w w' th :
  valid_form form ->
  start_blocking abspath lower is_admin form w = (w', [StartThread th]) ->
  (app_paths th <> [] \/ process_names th <> [])
  /\ 1 <= check_frequency th <= 60
  /\ 1 <= duration_minutes th <= 1440
  /\ (forall n, In n (process_names th) -> exists c, clean_name c /\ n = lower c)
  /\ (forall s, scheduled th = Some s ->
                strptime_HM s = Some (start_hour form, start_minute form))
  /\ blocker_thread w' = Some th
  /\ enabled w' = blocking.
Proof.
  intros (D & F & H & M) E.
  destruct (start_blocking_started abspath lower _ _ _ _ _ E) as (-> & -> & G & _).
  cbn [init app_paths process_names check_frequency duration_minutes blocker_thread enabled].
  repeat split; try lia.
  - destruct (items form), (parse_names (names_text form)); cbn in *;
      try discriminate G; [right | left | left]; discriminate.
  - intros n I. apply in_map_iff in I. destruct I as [c [<- I]].
    exists c. split; [ | reflexivity].
    unfold parse_names in I. rewrite in_flat_map in I. destruct I as [piece [Hp Hn]].
    destruct (truthy (strip piece)) eqn:T; [ | contradiction].
    destruct Hn as [<- | []]. repeat split.
    + exact T.
    + apply strip_idem.
    + intros B. apply strip_chars in B. exact (split_pieces _ _ _ Hp B).
  - intros s. unfold scheduled, init. cbn [start_time].
    destruct (start_checked form); [ | discriminate].
    rewrite toString_truthy. intros S. inversion S. apply strptime_toString; assumption.
Qed.

(** X21.  After a session the inputs are as they were when the window
    was opened, whether the session was stopped or came to its end: the
    time edit stays disabled even while its check box is ticked. *)
Theorem session_leaves_start_time_disabled is_admin form w w' th is_running form' :
  start_blocking abspath lower is_admin form w = (w', [StartThread th]) ->
  enabled (fst (Gui.blocking_finished w')) = enabled opened
  /\ enabled (fst (stop_blocking is_running form' w')) = enabled opened.
Proof.
  intros E. destruct (start_blocking_started abspath lower _ _ _ _ _ E) as (_ & -> & _).
  unfold stop_blocking. cbn [blocker_thread enabled]. destruct is_running; split; reflexivity.
Qed.

(** X22.  The worker does not refuse the start time of a thread that the
    window has started, as long as the three readings of the clock that
    make up the date fall on one day. *)
Theorem window_start_time_is_accepted is_admin form w w' th fuel env :
  valid_form form ->
  start_blocking abspath lower is_admin form w = (w', [StartThread th]) ->
  same_day (clock env 0) (clock env 1) ->
  same_day (clock env 0) (clock env 2) ->
  existsb logs_bad_time (trace (snd (run_thread abspath lower fuel env th))) = false.
Proof.
  intros (_ & _ & H & M) E D1 D2.
  destruct (start_blocking_started abspath lower _ _ _ _ _ E) as (T & _).
  destruct (existsb logs_bad_time _) eqn:B; [exfalso | reflexivity].
  destruct (run_reaches abspath lower env th fuel) as [ph [R _]]. cbv zeta in R.
  destruct (reaches_refused abspath lower env th _ _ _ R B) as [s [S C]].
  assert (P : strptime_HM s = Some (start_hour form, start_minute form)).
  { revert S. rewrite T. unfold scheduled, init. cbn [start_time].
    destruct (start_checked form); [ | discriminate].
    rewrite toString_truthy. intros S. inversion S. apply strptime_toString; assumption. }
  destruct C as [C | [hm [_ C]]]; [congruence | ].
  destruct (same_day_date _ _ D1) as (_ & Mo & _).
  destruct (same_day_date _ _ D2) as (_ & _ & Dy).
  rewrite Mo, Dy, replace_date_today in C. discriminate C.
Qed.

End WindowFacts.

(** X23.  When the user stops a session, [stop_blocking] forgets the
    thread before the thread's [finished] signal is handled, so that the
    slot logs "Blocking session completed." and sends no notification. *)
Theorem finished_after_stop_only_logs form w th :
  blocker_thread w = Some th ->
  In StopThread (snd (stop_blocking true form w))
  /\ blocker_thread (fst (stop_blocking true form w)) = None
  /\ snd (Gui.blocking_finished (fst (stop_blocking true form w))) = [LogSessionCompleted].
Proof.
  intros W. unfold stop_blocking. rewrite W. cbn. auto.
Qed.

(** ** Instances *)

Import Sessions.

Lemma silent_when_notifications_off_witness :
  notify by_name = false
  /\ existsb notifies (trace (snd (run_thread abspath lower 3 calc_running by_name))) = false.
Proof.
  split; [reflexivity | ].
  exact (silent_when_notifications_off abspath lower calc_running by_name 3 eq_refl).
Defined.

Lemma returned_run_ended_one_way_witness :
  fst (run_thread abspath lower 3 stop_while_counting at_one_past_midnight) = Ok tt
  /\ ended_one_way
       (trace (snd (run_thread abspath lower 3 stop_while_counting at_one_past_midnight))).
Proof.
  split; [reflexivity | ].
  exact (returned_run_ended_one_way abspath lower stop_while_counting at_one_past_midnight 3
           eq_refl).
Defined.

Lemma only_hard_failures_leave_run_witness :
  fst (run_thread abspath lower 2 with_broken by_name) = Raise OtherError
  /\ soft_failure OtherError = false.
Proof.
  split; [reflexivity | ].
  exact (only_hard_failures_leave_run abspath lower with_broken by_name 2 OtherError eq_refl).
Defined.

Lemma run_ends_after_stop_witness :
  stop_at stop_while_counting = Some 9%nat
  /\ (9 < 10)%nat
  /\ fst (run_thread abspath lower 10 stop_while_counting at_one_past_midnight) <> OutOfFuel.
Proof.
  assert (L : (9 < 10)%nat) by lia.
  split; [reflexivity | split; [exact L | ]].
  exact (run_ends_after_stop abspath lower stop_while_counting at_one_past_midnight 9 10
           eq_refl L).
Defined.

Lemma countdown_ends_in_time_witness :
  2 * us_per_second <= Z.of_nat 2 * us_per_second
  /\ fst (countdown 3 suspended (2 * us_per_second) initial) = Ok tt.
Proof.
  assert (B : 2 * us_per_second <= Z.of_nat 2 * us_per_second) by (cbn; lia).
  split; [exact B | ].
  exact (countdown_ends_in_time suspended 2 (2 * us_per_second) initial B).
Defined.

Lemma blocking_ends_at_end_time_witness :
  (forall pos, (0 <= pos)%nat -> 0 <= clock suspended pos)
  /\ (0 < 1)%nat
  /\ fst (blocking_loop abspath lower 1 suspended by_name 0 initial) <> OutOfFuel.
Proof.
  assert (P : forall pos, (0 <= pos)%nat -> 0 <= clock suspended pos)
    by (intros pos _; cbn; unfold us_per_second; lia).
  assert (L : (0 < 1)%nat) by lia.
  split; [exact P | split; [exact L | ]].
  exact (blocking_ends_at_end_time abspath lower suspended by_name 0 0 1 initial P L).
Defined.

Lemma scheduled_start_is_next_occurrence_witness :
  scheduled at_one_past_midnight = Some "00:01"
  /\ strptime_HM "00:01" = Some (0, 1)
  /\ same_day (clock stop_while_counting 0) (clock stop_while_counting 1)
  /\ same_day (clock stop_while_counting 0) (clock stop_while_counting 2)
  /\ same_day (clock stop_while_counting 0) (clock stop_while_counting 3)
  /\ exists start,
       nth_error
         (trace (snd (run_thread abspath lower 3 stop_while_counting at_one_past_midnight))) 4
       = Some (Log INFO (Scheduled start))
       /\ clock stop_while_counting 3 <= start < clock stop_while_counting 3 + timedelta_days 1
       /\ start mod us_per_day = (0 * 3600 + 1 * 60) * us_per_second.
Proof.
  do 5 (split; [reflexivity | ]).
  exact (scheduled_start_is_next_occurrence abspath lower stop_while_counting
           at_one_past_midnight 3 "00:01" 0 1 eq_refl eq_refl eq_refl eq_refl eq_refl).
Defined.

Lemma refusal_has_a_cause_witness :
  existsb logs_bad_time (trace (snd (run_thread abspath lower 3 suspended malformed_start)))
  = true
  /\ exists s, scheduled malformed_start = Some s
               /\ (strptime_HM s = None
                   \/ ~ (same_day (clock suspended 0) (clock suspended 1)
                         /\ same_day (clock suspended 0) (clock suspended 2))).
Proof.
  split; [reflexivity | ].
  exact (refusal_has_a_cause abspath lower suspended malformed_start 3 eq_refl).
Defined.

Lemma completion_is_notified_twice_witness :
  let r := run_thread abspath lower 5 calc_running by_name_notifying in
  let w := {| enabled := blocking; blocker_thread := Some by_name_notifying |} in
  notify by_name_notifying = true
  /\ fst r = Ok tt
  /\ existsb logs_finished (trace (snd r)) = true
  /\ blocker_thread w = Some by_name_notifying
  /\ In (Notification FinishedBlocking) (trace (snd r))
  /\ In NotifyFinished (snd (Gui.blocking_finished w)).
Proof.
  cbv zeta. do 4 (split; [reflexivity | ]).
  exact (completion_is_notified_twice abspath lower calc_running by_name_notifying 5
           {| enabled := blocking; blocker_thread := Some by_name_notifying |}
           eq_refl eq_refl eq_refl eq_refl).
Defined.

Lemma parsed_names_are_clean_witness :
  In "notepad.exe" (parse_names (names_text filled)) /\ clean_name "notepad.exe".
Proof.
  assert (I : In "notepad.exe" (parse_names (names_text filled)))
    by (vm_compute; right; left; reflexivity).
  split; [exact I | ].
  exact (parsed_names_are_clean (names_text filled) "notepad.exe" I).
Defined.

Lemma joined_names_parse_back_witness :
  Forall clean_name ["calc"; "notepad.exe"]
  /\ Forall ascii_text ["calc"; "notepad.exe"]
  /\ parse_names (String.concat ";" ["calc"; "notepad.exe"]) = ["calc"; "notepad.exe"].
Proof.
  assert (C : Forall clean_name ["calc"; "notepad.exe"]).
  { repeat (constructor; [split; [reflexivity | split; [reflexivity | ]] | ]);
      [ | | constructor].
    all: intros H; cbn in H; repeat (destruct H as [H | H]; [discriminate H | ]);
      contradiction. }
  assert (A : Forall ascii_text ["calc"; "notepad.exe"])
    by (repeat constructor).
  split; [exact C | split; [exact A | ]].
  exact (joined_names_parse_back ["calc"; "notepad.exe"] C A).
Defined.

Lemma time_edit_text_parses_back_witness :
  0 <= 7 < 24 /\ 0 <= 5 < 60 /\ strptime_HM (toString_HHmm 7 5) = Some (7, 5).
Proof.
  assert (H : 0 <= 7 < 24) by lia. assert (M : 0 <= 5 < 60) by lia.
  split; [exact H | split; [exact M | ]].
  exact (time_edit_text_parses_back 7 5 H M).
Defined.

Lemma added_paths_stay_distinct_witness :
  NoDup ["/usr/bin/calc"; "/usr/bin/gedit"]
  /\ NoDup (add_application ["/usr/bin/calc"; "/usr/bin/gedit"]
              ["/usr/bin/gedit"; "/usr/bin/vi"; "/usr/bin/vi"]).
Proof.
  assert (N : NoDup ["/usr/bin/calc"; "/usr/bin/gedit"]).
  { repeat constructor; cbn; intros H;
      repeat (destruct H as [H | H]; [discriminate H | ]); contradiction. }
  split; [exact N | ].
  exact (proj1 (added_paths_stay_distinct ["/usr/bin/gedit"; "/usr/bin/vi"; "/usr/bin/vi"]
                  ["/usr/bin/calc"; "/usr/bin/gedit"] N)).
Defined.

Lemma filled_is_valid : valid_form filled.
Proof. unfold valid_form. cbn. lia. Qed.

Lemma window_thread_is_well_formed_witness :
  valid_form filled
  /\ start_blocking abspath lower false filled opened
     = (blocking_window, [StartThread filled_thread])
  /\ 1 <= check_frequency filled_thread <= 60
  /\ forall s, scheduled filled_thread = Some s -> strptime_HM s = Some (7, 5).
Proof.
  split; [exact filled_is_valid | split; [reflexivity | ]].
  destruct (window_thread_is_well_formed abspath lower false filled opened blocking_window
              filled_thread filled_is_valid eq_refl) as (_ & F & _ & _ & S & _).
  split; [exact F | exact S].
Defined.

Lemma window_start_time_is_accepted_witness :
  valid_form filled
  /\ start_blocking abspath lower false filled opened
     = (blocking_window, [StartThread filled_thread])
  /\ same_day (clock calc_running 0) (clock calc_running 1)
  /\ same_day (clock calc_running 0) (clock calc_running 2)
  /\ existsb logs_bad_time (trace (snd (run_thread abspath lower 2 calc_running filled_thread)))
     = false.
Proof.
  split; [exact filled_is_valid | ]. do 3 (split; [reflexivity | ]).
  exact (window_start_time_is_accepted abspath lower false filled opened blocking_window
           filled_thread 2 calc_running filled_is_valid eq_refl eq_refl eq_refl).
Defined.

Lemma session_leaves_start_time_disabled_witness :
  start_blocking abspath lower false filled (toggle_start_time opened true)
  = (blocking_window, [StartThread filled_thread])
  /\ start_time_input (enabled (toggle_start_time opened true)) = true
  /\ enabled (fst (Gui.blocking_finished blocking_window)) = enabled opened
  /\ enabled (fst (stop_blocking true filled blocking_window)) = enabled opened.
Proof.
  do 2 (split; [reflexivity | ]).
  exact (session_leaves_start_time_disabled abspath lower false filled
           (toggle_start_time opened true) blocking_window filled_thread true filled eq_refl).
Defined.

Lemma finished_after_stop_only_logs_witness :
  blocker_thread blocking_window = Some filled_thread
  /\ In StopThread (snd (stop_blocking true filled blocking_window))
  /\ blocker_thread (fst (stop_blocking true filled blocking_window)) = None
  /\ snd (Gui.blocking_finished (fst (stop_blocking true filled blocking_window)))
     = [LogSessionCompleted].
Proof.
  split; [reflexivity | ].
  exact (finished_after_stop_only_logs filled blocking_window filled_thread eq_refl).
Defined.

Lemma every_pass_begins_in_time_witness :
  let tr := trace (snd (run_thread abspath lower 5 calc_running by_name_notifying)) in
  nth_error tr 5 = Some (ProcessIter [7])
  /\ exists j, started_at calc_running by_name_notifying tr j
               /\ (2 <= 5)%nat
               /\ nth_error tr (5 - 2) = Some (Now (clock calc_running (5 - 2)))
               /\ clock calc_running (5 - 2)
                  < clock calc_running j
                    + timedelta_minutes (duration_minutes by_name_notifying).
Proof.
  cbv zeta. split; [reflexivity | ].
  exact (every_pass_begins_in_time abspath lower calc_running by_name_notifying 5 5 [7]
           eq_refl).
Defined.

Lemma listed_process_is_never_skipped_witness :
  let ps := [guarded 7 "calc"; stubborn 8 "/usr/bin/calc" "Calc"] in
  Forall cooperative ps
  /\ In (stubborn 8 "/usr/bin/calc" "Calc") ps
  /\ ((exists r, In (Terminate 8 r) (pass_events abspath lower by_path_and_name ps))
      \/ (exists x, In (Log WARNING (FailedToTerminate 8 x))
                       (pass_events abspath lower by_path_and_name ps))).
Proof.
  cbv zeta.
  assert (C : Forall cooperative [guarded 7 "calc"; stubborn 8 "/usr/bin/calc" "Calc"])
    by (constructor; [apply guarded_cooperative
                     | constructor; [apply stubborn_cooperative | constructor]]).
  assert (I : In (stubborn 8 "/usr/bin/calc" "Calc")
                [guarded 7 "calc"; stubborn 8 "/usr/bin/calc" "Calc"])
    by (right; left; reflexivity).
  split; [exact C | split; [exact I | ]].
  refine (listed_process_is_never_skipped abspath lower by_path_and_name _ _ C I _).
  left. exists "/usr/bin/calc". split; [reflexivity | split; [reflexivity | ]].
  left. reflexivity.
Defined.
